(** * Task API: validation layer, task service and storage

    A shallow embedding of [src/schemas/task.py], [src/models/task.py],
    [src/exceptions.py], [src/services/task_service.py] and
    [src/api/tasks.py], followed by the properties of the specification
    that are settled against it. *)

From stdpp Require Import gmap strings list sorting pretty.
From Stdlib Require Import ZArith NArith.

Local Open Scope string_scope.
Local Open Scope nat_scope.
Local Open Scope list_scope.

(** ** Python values *)

(** A Python [str] is a sequence of Unicode code points. *)
Definition pystr := list N.

(** The code points of an ASCII literal. *)
Definition pystr_of_string (s : string) : pystr :=
  Ascii.N_of_ascii <$> String.list_ascii_of_string s.

(** Whitespace in the sense of [str.isspace] and of [str.strip()] called
    without argument: the code points with bidirectional type WS, B or S,
    or of category Zs. *)
Definition Py_UNICODE_ISSPACE (c : N) : bool :=
  ((0x09 <=? c) && (c <=? 0x0D)
   || (0x1C <=? c) && (c <=? 0x20)
   || (c =? 0x85) || (c =? 0xA0) || (c =? 0x1680)
   || (0x2000 <=? c) && (c <=? 0x200A)
   || (c =? 0x2028) || (c =? 0x2029) || (c =? 0x202F)
   || (c =? 0x205F) || (c =? 0x3000))%N.

Fixpoint lstrip (s : pystr) : pystr :=
  match s with
  | c :: s' => if Py_UNICODE_ISSPACE c then lstrip s' else s
  | [] => []
  end.

Definition rstrip (s : pystr) : pystr := reverse (lstrip (reverse s)).

(** [v.strip()] *)
Definition strip (s : pystr) : pystr := rstrip (lstrip s).

(** A surrogate code point. A Python [str] can hold one on its own (the
    JSON escape of a lone surrogate parses to one), UTF-8 cannot. *)
Definition is_surrogate (c : N) : bool := ((0xD800 <=? c) && (c <=? 0xDFFF))%N.

(** [s.encode("utf-8")] succeeds. *)
Definition encodable (s : pystr) : bool :=
  forallb (λ c, negb (is_surrogate c)) s.

(** [datetime] values are microseconds since the epoch, [UUID]s are
    128-bit numbers. *)
Definition datetime := Z.
Definition UUID := N.

(** A value of a request body (or a keyword argument of a schema
    constructor): null, a boolean, an integer, a string, or anything else
    (a float, an array, an object). *)
Inductive json :=
| JNull
| JBool (b : bool)
| JInt (z : Z)
| JStr (s : pystr)
| JOther.

(** ** Exceptions *)

Inductive error :=
| ValidationError (fields : list string)  (* pydantic: the offending fields *)
| TaskNotFoundError (task_id : UUID)      (* src/exceptions.py *)
| IntegrityError                          (* NOT NULL / PRIMARY KEY violated *)
| UnicodeEncodeError                      (* a bound string has a surrogate *)
| MultipleResultsFound                    (* scalar_one_or_none on 2+ rows *)
| InvalidRequestError.                    (* refresh of a row that is gone *)

Inductive result (A : Type) :=
| Ok (a : A)
| Raise (e : error).
Arguments Ok {A} a.
Arguments Raise {A} e.

(** ** Validation layer: src/schemas/task.py *)

(** The core schema of a [str] field declared with
    [Field(min_length=lo, max_length=hi)]: the input must be a string, it
    must decode (a constrained string with a lone surrogate is refused as
    [string_unicode]) and its length, as supplied, must lie within the
    bounds. *)
Definition str_schema (lo hi : nat) (v : json) : option pystr :=
  match v with
  | JStr s =>
      if encodable s && (lo <=? length s)%nat && (length s <=? hi)%nat
      then Some s else None
  | _ => None
  end.

(** [str | None] without constraints: any string passes as it is. *)
Definition nullable_str (v : json) : option (option pystr) :=
  match v with
  | JNull => Some None
  | JStr s => Some (Some s)
  | _ => None
  end.

(** The names a failed field contributes to the [ValidationError]. *)
Definition field_errors {A} (name : string) (r : option A) : list string :=
  match r with
  | Some _ => []
  | None => [name]
  end.

Module TaskCreate.

Record t := mk {
  title : pystr;
  description : option pystr
}.

(** [@field_validator("title")], run after the field's own schema. *)
Definition title_not_whitespace (v : pystr) : option pystr :=
  let stripped := strip v in
  if bool_decide (stripped = []) then None  (* raise ValueError *)
  else Some stripped.

(** [title: str = Field(min_length=1, max_length=200)]: required. *)
Definition validate_title (v : option json) : option pystr :=
  match v with
  | None => None  (* missing *)
  | Some v => str_schema 1 200 v ≫= title_not_whitespace
  end.

(** [description: str | None = None] *)
Definition validate_description (v : option json) : option (option pystr) :=
  match v with
  | None => Some None
  | Some v => nullable_str v
  end.

(** Construction of a [TaskCreate] from a payload: the two declared
    fields are read, every other key of the payload is ignored
    (pydantic's default [extra='ignore']). *)
Definition validate (payload : gmap string json) : result t :=
  match validate_title (payload !! "title"),
        validate_description (payload !! "description") with
  | Some ti, Some de => Ok (mk ti de)
  | rt, rd =>
      Raise (ValidationError
               (field_errors "title" rt ++ field_errors "description" rd))
  end.

End TaskCreate.

(** One entry of the dictionary [model_dump] returns for a [TaskUpdate]:
    a field name together with a value of that field's type. *)
Inductive item :=
| title_item (v : option pystr)          (* ("title", v) *)
| description_item (v : option pystr)    (* ("description", v) *)
| is_completed_item (v : option bool).   (* ("is_completed", v) *)

Module TaskUpdate.

Record t := mk {
  title : option pystr;
  description : option pystr;
  is_completed : option bool;
  model_fields_set : gset string  (* the fields the caller supplied *)
}.

(** [@field_validator("title")] *)
Definition title_not_whitespace (v : option pystr) : option (option pystr) :=
  match v with
  | None => Some None
  | Some v =>
      let stripped := strip v in
      if bool_decide (stripped = []) then None  (* raise ValueError *)
      else Some (Some stripped)
  end.

(** [title: str | None = Field(default=None, min_length=1, max_length=200)] *)
Definition validate_title (v : json) : option (option pystr) :=
  match v with
  | JNull => Some None
  | _ => Some <$> str_schema 1 200 v
  end ≫= title_not_whitespace.

(** A field with a default: the schema only runs on a supplied value. *)
Definition with_default {A} (schema : json → option A) (d : A)
    (v : option json) : option A :=
  match v with
  | None => Some d
  | Some v => schema v
  end.

Section validate.

(** pydantic's conversion of a non-null value to [bool]; its table of
    accepted inputs belongs to the library and no property below
    depends on it. *)
Variable bool_schema : json → option bool.

(** [is_completed: bool | None = None] *)
Definition validate_is_completed (v : json) : option (option bool) :=
  match v with
  | JNull => Some None
  | _ => Some <$> bool_schema v
  end.

(** Construction of a [TaskUpdate] from a payload. *)
Definition validate (payload : gmap string json) : result t :=
  match with_default validate_title None (payload !! "title"),
        with_default nullable_str None (payload !! "description"),
        with_default validate_is_completed None (payload !! "is_completed") with
  | Some ti, Some de, Some co =>
      Ok (mk ti de co
            (dom payload ∩ {["title"; "description"; "is_completed"]}))
  | rt, rd, rc =>
      Raise (ValidationError
               (field_errors "title" rt ++ field_errors "description" rd
                ++ field_errors "is_completed" rc))
  end.

End validate.

(** [task_data.model_dump(exclude_unset=True)]: the supplied fields, in
    declaration order. *)
Definition model_dump_exclude_unset (u : t) : list item :=
  (if bool_decide ("title" ∈ model_fields_set u)
   then [title_item (title u)] else [])
  ++ (if bool_decide ("description" ∈ model_fields_set u)
      then [description_item (description u)] else [])
  ++ (if bool_decide ("is_completed" ∈ model_fields_set u)
      then [is_completed_item (is_completed u)] else []).

End TaskUpdate.

(** ** Task entity: src/models/task.py *)

Module Task.

(** The attributes of a [Task] object. Python attributes are untyped, so
    [title] and [is_completed] may hold [None] in memory; the columns
    are declared [nullable=False] and [not_null] is checked when the
    object is written to the table. *)
Record t := mk {
  id : UUID;
  title : option pystr;
  description : option pystr;
  is_completed : option bool;
  created_at : datetime;
  updated_at : datetime
}.

(** [setattr(task, key, value)] *)
Definition setattr (task : t) (kv : item) : t :=
  match kv with
  | title_item v =>
      mk (id task) v (description task) (is_completed task)
         (created_at task) (updated_at task)
  | description_item v =>
      mk (id task) (title task) v (is_completed task)
         (created_at task) (updated_at task)
  | is_completed_item v =>
      mk (id task) (title task) (description task) v
         (created_at task) (updated_at task)
  end.

(** [task.updated_at = value] *)
Definition set_updated_at (task : t) (value : datetime) : t :=
  mk (id task) (title task) (description task) (is_completed task)
     (created_at task) value.

(** The [nullable=False] columns that an attribute can violate. *)
Definition not_null (task : t) : bool :=
  bool_decide (is_Some (title task))
  && bool_decide (is_Some (is_completed task)).

(** The strings of the record can be sent to the database. *)
Definition sendable (task : t) : bool :=
  from_option encodable true (title task)
  && from_option encodable true (description task).

(** [ORDER BY created_at DESC] *)
Definition created_at_desc (a b : t) : Prop := (created_at b ≤ created_at a)%Z.

#[global] Instance created_at_desc_dec : RelDecision created_at_desc.
Proof. intros a b. unfold created_at_desc. apply _. Defined.

End Task.

Module TaskResponse.

Record t := mk {
  id : UUID;
  title : pystr;
  description : option pystr;
  is_completed : bool;
  created_at : datetime;
  updated_at : datetime
}.

(** [TaskResponse.model_validate(task)] with [from_attributes=True] *)
Definition model_validate (task : Task.t) : result t :=
  match Task.title task, Task.is_completed task with
  | Some ti, Some co =>
      Ok (mk (Task.id task) ti (Task.description task) co
             (Task.created_at task) (Task.updated_at task))
  | rt, rc =>
      Raise (ValidationError
               (field_errors "title" rt ++ field_errors "is_completed" rc))
  end.

End TaskResponse.

(** ** The world a request runs in *)

(** The task table (rows in insertion order) and the number of values
    drawn so far from the clock and from the UUID generator. *)
Record World := mkWorld {
  table : list Task.t;
  clock_reads : nat;
  uuid_draws : nat
}.

Definition empty_world : World := mkWorld [] 0 0.

(** A coroutine of the service: it runs in a world and either returns a
    value or raises; [await] is [bind]. *)
Definition IO (A : Type) : Type := World → result A * World.

Definition ret {A} (a : A) : IO A := λ w, (Ok a, w).

Definition raise {A} (e : error) : IO A := λ w, (Raise e, w).

Definition bind {A B} (m : IO A) (k : A → IO B) : IO B :=
  λ w, match m w with
       | (Ok a, w') => k a w'
       | (Raise e, w') => (Raise e, w')
       end.

Definition lift {A} (r : result A) : IO A := λ w, (r, w).

Notation "x <~ m ;; k" := (bind m (λ x, k))
  (at level 100, m at next level, right associativity).
Notation "m ;;; k" := (bind m (λ _, k))
  (at level 100, right associativity).

(** ** Persistence boundary: the session's unit of work *)

(** [select(Task).where(Task.id == task_id)] *)
Definition select_where_id (task_id : UUID) : IO (list Task.t) :=
  λ w, (Ok (filter (λ r, Task.id r = task_id) (table w)), w).

(** [select(Task).order_by(Task.created_at.desc())]; the order of rows
    with equal [created_at] is the sort's, the engine promises none. *)
Definition select_order_by_created_at_desc : IO (list Task.t) :=
  λ w, (Ok (merge_sort Task.created_at_desc (table w)), w).

(** [result.scalar_one_or_none()] *)
Definition scalar_one_or_none (rows : list Task.t) : IO (option Task.t) :=
  match rows with
  | [] => ret None
  | [r] => ret (Some r)
  | _ => raise MultipleResultsFound
  end.

(** [session.add(task); await session.commit()] for a new object: an
    INSERT. The driver raises when it cannot encode a string it has to
    bind; the database refuses the row when a [nullable=False] column is
    null or the primary key is taken. *)
Definition commit_insert (task : Task.t) : IO () :=
  λ w,
    if negb (Task.sendable task) then (Raise UnicodeEncodeError, w)
    else if Task.not_null task
            && bool_decide (Task.id task ∉ Task.id <$> table w)
    then (Ok (), mkWorld (table w ++ [task]) (clock_reads w) (uuid_draws w))
    else (Raise IntegrityError, w).

(** [UPDATE task SET ... WHERE id = task.id] *)
Definition update_where_id (task : Task.t) (rows : list Task.t) : list Task.t :=
  (λ r, if bool_decide (Task.id r = Task.id task) then task else r) <$> rows.

(** [session.add(task); await session.commit()] for a loaded object whose
    attributes were assigned: an UPDATE of the row with its primary key.
    The driver raises when it cannot encode a string it has to bind (the
    strings of a stored row can be encoded, so such a string is one that
    was assigned); the database refuses the row when a [nullable=False]
    column is null. *)
Definition commit_update (task : Task.t) : IO () :=
  λ w,
    if negb (Task.sendable task) then (Raise UnicodeEncodeError, w)
    else if Task.not_null task
    then (Ok (),
          mkWorld (update_where_id task (table w))
                  (clock_reads w) (uuid_draws w))
    else (Raise IntegrityError, w).

(** [await session.delete(task); await session.commit()] *)
Definition commit_delete (task : Task.t) : IO () :=
  λ w, (Ok (),
        mkWorld (filter (λ r, Task.id r ≠ Task.id task) (table w))
                (clock_reads w) (uuid_draws w)).

(** [await session.refresh(task)]: the attributes are reloaded from the
    row with the object's primary key. *)
Definition refresh (task : Task.t) : IO Task.t :=
  rows <~ select_where_id (Task.id task) ;;
  row <~ scalar_one_or_none rows ;;
  match row with
  | Some r => ret r
  | None => raise InvalidRequestError
  end.

Section Service.

(** The environment: the n-th reading of [datetime.utcnow()] and the
    n-th value of [uuid4()]. *)
Variable utcnow : nat → datetime.
Variable uuid4 : nat → UUID.

Definition datetime_utcnow : IO datetime :=
  λ w, (Ok (utcnow (clock_reads w)),
        mkWorld (table w) (S (clock_reads w)) (uuid_draws w)).

Definition uuid_uuid4 : IO UUID :=
  λ w, (Ok (uuid4 (uuid_draws w)),
        mkWorld (table w) (clock_reads w) (S (uuid_draws w))).

(** [Task(title=..., description=...)]: the remaining fields take their
    defaults in declaration order; [created_at] and [updated_at] each
    call their own [default_factory]. *)
Definition Task_init (title : pystr) (description : option pystr) : IO Task.t :=
  id <~ uuid_uuid4 ;;
  created_at <~ datetime_utcnow ;;
  updated_at <~ datetime_utcnow ;;
  ret (Task.mk id (Some title) description (Some false) created_at updated_at).

(** *** src/services/task_service.py *)

Definition create_task (task_data : TaskCreate.t) : IO Task.t :=
  task <~ Task_init (TaskCreate.title task_data)
                    (TaskCreate.description task_data) ;;
  commit_insert task ;;;
  refresh task.

Definition get_task (task_id : UUID) : IO Task.t :=
  result <~ select_where_id task_id ;;
  task <~ scalar_one_or_none result ;;
  match task with
  | None => raise (TaskNotFoundError task_id)
  | Some task => ret task
  end.

Definition list_tasks : IO (list Task.t) :=
  select_order_by_created_at_desc.

Definition update_task (task_id : UUID) (task_data : TaskUpdate.t) : IO Task.t :=
  task <~ get_task task_id ;;
  let update_data := TaskUpdate.model_dump_exclude_unset task_data in
  let task := foldl Task.setattr task update_data in
  now <~ datetime_utcnow ;;
  let task := Task.set_updated_at task now in
  commit_update task ;;;
  refresh task.

Definition delete_task (task_id : UUID) : IO () :=
  task <~ get_task task_id ;;
  commit_delete task.

(** *** src/api/tasks.py *)

Variable bool_schema : json → option bool.

Inductive response :=
| task_body (t : TaskResponse.t)
| tasks_body (ts : list TaskResponse.t)
| no_content.

Definition post_tasks (payload : gmap string json) : IO response :=
  task_data <~ lift (TaskCreate.validate payload) ;;
  task <~ create_task task_data ;;
  r <~ lift (TaskResponse.model_validate task) ;;
  ret (task_body r).

Fixpoint model_validate_all (tasks : list Task.t) : result (list TaskResponse.t) :=
  match tasks with
  | [] => Ok []
  | task :: tasks =>
      match TaskResponse.model_validate task, model_validate_all tasks with
      | Ok r, Ok rs => Ok (r :: rs)
      | Raise e, _ => Raise e
      | _, Raise e => Raise e
      end
  end.

Definition get_tasks : IO response :=
  tasks <~ list_tasks ;;
  rs <~ lift (model_validate_all tasks) ;;
  ret (tasks_body rs).

Definition get_tasks_id (task_id : UUID) : IO response :=
  task <~ get_task task_id ;;
  r <~ lift (TaskResponse.model_validate task) ;;
  ret (task_body r).

Definition put_tasks_id (task_id : UUID) (payload : gmap string json) : IO response :=
  task_data <~ lift (TaskUpdate.validate bool_schema payload) ;;
  task <~ update_task task_id task_data ;;
  r <~ lift (TaskResponse.model_validate task) ;;
  ret (task_body r).

Definition delete_tasks_id (task_id : UUID) : IO response :=
  delete_task task_id ;;;
  ret no_content.

(** A request to the router, and a client session as a list of them. *)
Inductive request :=
| POST (payload : gmap string json)
| GET_all
| GET (task_id : UUID)
| PUT (task_id : UUID) (payload : gmap string json)
| DELETE (task_id : UUID).

Definition handle (r : request) : IO response :=
  match r with
  | POST payload => post_tasks payload
  | GET_all => get_tasks
  | GET task_id => get_tasks_id task_id
  | PUT task_id payload => put_tasks_id task_id payload
  | DELETE task_id => delete_tasks_id task_id
  end.

(** The world after a sequence of requests, whatever each answered. *)
Definition serve (rs : list request) (w : World) : World :=
  foldl (λ w r, (handle r w).2) w rs.

End Service.

(** ** Predicates of the specification *)

(** Empty or made of whitespace only. *)
Definition whitespace_only (s : pystr) : bool := forallb Py_UNICODE_ISSPACE s.

(** A stored title that is a string with at least one character that is
    not whitespace (so neither null, nor empty, nor blank). *)
Definition title_ok (r : Task.t) : Prop :=
  ∃ s, Task.title r = Some s ∧ s ≠ [] ∧ whitespace_only s = false.

(** The constraints the table declares: [primary_key=True] on [id] and
    [nullable=False] on [title] and [is_completed]. *)
Definition db_ok (w : World) : Prop :=
  NoDup (Task.id <$> table w) ∧ Forall (λ r, Task.not_null r = true) (table w).

(** The record [Task(...)] builds in world [w], and the world once it is
    committed. *)
Definition created (utcnow : nat → datetime) (uuid4 : nat → UUID)
    (task_data : TaskCreate.t) (w : World) : Task.t :=
  Task.mk (uuid4 (uuid_draws w))
          (Some (TaskCreate.title task_data)) (TaskCreate.description task_data)
          (Some false)
          (utcnow (clock_reads w)) (utcnow (S (clock_reads w))).

Definition after_create (utcnow : nat → datetime) (uuid4 : nat → UUID)
    (task_data : TaskCreate.t) (w : World) : World :=
  mkWorld (table w ++ [created utcnow uuid4 task_data w])
          (S (S (clock_reads w))) (S (uuid_draws w)).

(** The record [update_task] hands to the commit: the supplied fields of
    [u] over [old], stamped with [now]. *)
Definition updated (u : TaskUpdate.t) (now : datetime) (old : Task.t) : Task.t :=
  Task.mk (Task.id old)
    (if bool_decide ("title" ∈ TaskUpdate.model_fields_set u)
     then TaskUpdate.title u else Task.title old)
    (if bool_decide ("description" ∈ TaskUpdate.model_fields_set u)
     then TaskUpdate.description u else Task.description old)
    (if bool_decide ("is_completed" ∈ TaskUpdate.model_fields_set u)
     then TaskUpdate.is_completed u else Task.is_completed old)
    (Task.created_at old) now.

(** A supplied [title] or [is_completed] is not null. *)
Definition storable (u : TaskUpdate.t) : Prop :=
  ("title" ∈ TaskUpdate.model_fields_set u → is_Some (TaskUpdate.title u))
  ∧ ("is_completed" ∈ TaskUpdate.model_fields_set u
     → is_Some (TaskUpdate.is_completed u)).

(** [n] creations in a row, as a test would issue them. *)
Fixpoint create_all (utcnow : nat → datetime) (uuid4 : nat → UUID)
    (inputs : list TaskCreate.t) : IO (list Task.t) :=
  match inputs with
  | [] => ret []
  | task_data :: inputs =>
      task <~ create_task utcnow uuid4 task_data ;;
      tasks <~ create_all utcnow uuid4 inputs ;;
      ret (task :: tasks)
  end.

(** ** Sample data *)

(** A clock that advances by one microsecond per reading, and a generator
    that numbers its UUIDs. *)
Definition tick : nat → datetime := Z.of_nat.
Definition serial : nat → UUID := N.of_nat.

(** A conversion to [bool] that accepts booleans only. *)
Definition strict_bool (v : json) : option bool :=
  match v with
  | JBool b => Some b
  | _ => None
  end.

Definition sample_create : TaskCreate.t :=
  TaskCreate.mk (pystr_of_string "Write documentation")
                (Some (pystr_of_string "Create API docs")).

Definition sample_task : Task.t :=
  Task.mk 0%N (Some (pystr_of_string "Write documentation"))
          (Some (pystr_of_string "Create API docs")) (Some false) 0%Z 1%Z.

(** The world after [sample_create] was created in the empty world. *)
Definition sample_world : World := mkWorld [sample_task] 2 1.

(** An update that supplies [title] as null, and the request bodies that
    supply [description] as null and that supply nothing. *)
Definition null_title_update : TaskUpdate.t :=
  TaskUpdate.mk None None None {["title"]}.

Definition clear_description : gmap string json := {["description" := JNull]}.

(** An update that completes the sample task, the record it returns and
    the world it leaves; the record and the world after the description
    of the sample task was cleared. *)
Definition completed_update : TaskUpdate.t :=
  TaskUpdate.mk None None (Some true) {["is_completed"]}.

Definition completed_task : Task.t :=
  Task.mk 0%N (Some (pystr_of_string "Write documentation"))
          (Some (pystr_of_string "Create API docs")) (Some true) 0%Z 2%Z.

Definition completed_world : World := mkWorld [completed_task] 3 1.

Definition cleared_task : Task.t :=
  Task.mk 0%N (Some (pystr_of_string "Write documentation")) None
          (Some false) 0%Z 2%Z.

Definition cleared_world : World := mkWorld [cleared_task] 3 1.

(** Three creations in the empty world, the records they return and the
    world they leave. *)
Definition three_creations : list TaskCreate.t :=
  [sample_create; sample_create; sample_create].

Definition three_tasks : list Task.t :=
  Eval vm_compute in
    match create_all tick serial three_creations empty_world with
    | (Ok tasks, _) => tasks
    | (Raise _, _) => []
    end.

Definition three_world : World :=
  Eval vm_compute in (create_all tick serial three_creations empty_world).2.

(** A body that supplies both [description] and [title] as null. *)
Definition clear_description_and_title : gmap string json :=
  {["description" := JNull; "title" := JNull]}.

(** A client session: a creation, an update that supplies [title] as
    null, one that supplies a blank title and one that clears the
    description. *)
Definition sample_requests : list request :=
  [ POST {["title" := JStr (pystr_of_string "  Padded  ");
           "description" := JStr (pystr_of_string "Create API docs")]};
    PUT 0%N {["title" := JNull]};
    PUT 0%N {["title" := JStr (pystr_of_string "   ")]};
    PUT 0%N clear_description ].

(** A create body, to which a property below adds an [is_completed]
    key, and a body with a padded title. *)
Definition sample_payload : gmap string json :=
  {["title" := JStr (pystr_of_string "Deploy to production");
    "description" := JNull]}.

Definition padded_payload : gmap string json :=
  {["title" := JStr (pystr_of_string "  Padded  ")]}.

(** The record the session [sample_requests] leaves, and the record an
    update that completes it returns. *)
Definition padded_task : Task.t :=
  Task.mk 0%N (Some (pystr_of_string "Padded")) None (Some false) 0%Z 3%Z.

Definition padded_completed_task : Task.t :=
  Task.mk 0%N (Some (pystr_of_string "Padded")) None (Some true) 0%Z 4%Z.

(** The answer to [sample_payload] in the empty world, and the world it
    leaves. *)
Definition deployed_response : TaskResponse.t :=
  TaskResponse.mk 0%N (pystr_of_string "Deploy to production") None false
                  0%Z 1%Z.

Definition deployed_world : World :=
  mkWorld [Task.mk 0%N (Some (pystr_of_string "Deploy to production")) None
                   (Some false) 0%Z 1%Z] 2 1.

(** ** Application: src/exceptions.py, src/main.py *)

(** An entry of the location tuple of a validation error: a field name or
    an index. *)
Inductive loc_item :=
| LocStr (s : string)
| LocInt (i : Z).

(** [str(item)] *)
Definition str_loc_item (x : loc_item) : string :=
  match x with
  | LocStr s => s
  | LocInt i => pretty i
  end.

(** One entry of [exc.errors()]; a missing ["loc"] reads as the empty
    tuple, as [error.get("loc", ())] does. *)
Record ErrorDetails := mkError {
  loc : list loc_item;
  msg : string
}.

(** [str(loc[-1]) if loc else "unknown"] *)
Definition error_field (error : ErrorDetails) : string :=
  match last (loc error) with
  | Some x => str_loc_item x
  | None => "unknown"
  end.

(** The body of the loop of [validation_error_handler]. *)
Definition add_field_error (field_errors : gmap string (list string))
    (error : ErrorDetails) : gmap string (list string) :=
  let field := error_field error in
  let field_errors :=
    match field_errors !! field with
    | None => <[field := []]> field_errors
    | Some _ => field_errors
    end in
  alter (λ msgs, msgs ++ [msg error]) field field_errors.

(** The dictionary the loop builds (the order of its keys is left out). *)
Definition collect_field_errors (errors : list ErrorDetails) :
    gmap string (list string) :=
  foldl add_field_error ∅ errors.

(** What a response carries: the endpoint's return value, or the error
    body [{"detail", "error_code", "field_errors"?}]. *)
Inductive http_body :=
| returned (r : response)
| error_body (detail error_code : string)
             (field_errors : option (gmap string (list string))).

Record JSONResponse := mkResponse {
  status_code : nat;
  body : http_body
}.

(** [@app.exception_handler(RequestValidationError)] *)
Definition validation_error_handler (errors : list ErrorDetails) : JSONResponse :=
  mkResponse 400
    (error_body "Validation error" "VALIDATION_ERROR"
                (Some (collect_field_errors errors))).

(** The [status_code] of each route of src/api/tasks.py. *)
Definition success_status (r : request) : nat :=
  match r with
  | POST _ => 201
  | DELETE _ => 204
  | GET_all | GET _ | PUT _ _ => 200
  end.

(** The body of a request, and its validation before the endpoint runs. *)
Definition request_payload (r : request) : gmap string json :=
  match r with
  | POST payload | PUT _ payload => payload
  | GET_all | GET _ | DELETE _ => ∅
  end.

Section App.

Variable utcnow : nat → datetime.
Variable uuid4 : nat → UUID.
Variable bool_schema : json → option bool.

(** Python's [str(task_id)], and pydantic's message for the failure of a
    field of a body: both belong to libraries. *)
Variable str_uuid : UUID → string.
Variable error_msg : gmap string json → string → string.

(** [TaskNotFoundError.message] *)
Definition message (task_id : UUID) : string :=
  "Task with id " +:+ str_uuid task_id +:+ " not found".

(** [@app.exception_handler(TaskNotFoundError)] *)
Definition task_not_found_handler (task_id : UUID) : JSONResponse :=
  mkResponse 404 (error_body (message task_id) "TASK_NOT_FOUND" None).

(** The errors of a [RequestValidationError] on a body: one per offending
    field, located under ["body"]. *)
Definition body_errors (payload : gmap string json) (fields : list string) :
    list ErrorDetails :=
  (λ field, mkError [LocStr "body"; LocStr field] (error_msg payload field))
    <$> fields.

Definition validate_request (r : request) : result () :=
  match r with
  | POST payload =>
      match TaskCreate.validate payload with
      | Ok _ => Ok ()
      | Raise e => Raise e
      end
  | PUT _ payload =>
      match TaskUpdate.validate bool_schema payload with
      | Ok _ => Ok ()
      | Raise e => Raise e
      end
  | GET_all | GET _ | DELETE _ => Ok ()
  end.

(** The application: the body is validated, then the endpoint runs; a
    request validation error and a [TaskNotFoundError] are turned into
    responses by their handlers, any other exception escapes. *)
Definition app (r : request) : IO JSONResponse :=
  λ w,
    match validate_request r with
    | Raise (ValidationError fields) =>
        (Ok (validation_error_handler (body_errors (request_payload r) fields)), w)
    | Raise e => (Raise e, w)
    | Ok _ =>
        match handle utcnow uuid4 bool_schema r w with
        | (Ok resp, w') => (Ok (mkResponse (success_status r) (returned resp)), w')
        | (Raise (TaskNotFoundError task_id), w') =>
            (Ok (task_not_found_handler task_id), w')
        | (Raise e, w') => (Raise e, w')
        end
    end.

End App.

(** ** Further predicates *)

(** The response of a record with no null in a [nullable=False] column. *)
Definition to_response (task : Task.t) : TaskResponse.t :=
  TaskResponse.mk (Task.id task) (default [] (Task.title task))
    (Task.description task) (default false (Task.is_completed task))
    (Task.created_at task) (Task.updated_at task).

(** The id a request addresses, if any; a creation addresses the id it
    draws, a listing addresses none. *)
Definition addressed (uuid4 : nat → UUID) (r : request) (w : World) : option UUID :=
  match r with
  | POST _ => Some (uuid4 (uuid_draws w))
  | GET task_id | PUT task_id _ | DELETE task_id => Some task_id
  | GET_all => None
  end.

(** Both timestamps of a record are readings the clock has given. *)
Definition stamped (utcnow : nat → datetime) (w : World) (r : Task.t) : Prop :=
  ∃ i j, i ≤ j < clock_reads w
         ∧ Task.created_at r = utcnow i ∧ Task.updated_at r = utcnow j.

(** Created strictly earlier. *)
Definition created_before (a b : Task.t) : Prop :=
  (Task.created_at a < Task.created_at b)%Z.

Definition increasing (utcnow : nat → datetime) : Prop :=
  ∀ i j, i < j → (utcnow i < utcnow j)%Z.

Definition monotone (utcnow : nat → datetime) : Prop :=
  ∀ i j, i ≤ j → (utcnow i ≤ utcnow j)%Z.

(** ** Whitespace stripping *)

Lemma lstrip_length (s : pystr) : length (lstrip s) ≤ length s.
Proof.
  induction s as [|c s IH]; simpl; [lia|].
  destruct (Py_UNICODE_ISSPACE c); simpl; lia.
Qed.

Lemma strip_length (s : pystr) : length (strip s) ≤ length s.
Proof.
  unfold strip, rstrip. rewrite length_reverse.
  etrans; [apply lstrip_length|].
  rewrite length_reverse. apply lstrip_length.
Qed.

Lemma lstrip_head (s : pystr) c r :
  lstrip s = c :: r → Py_UNICODE_ISSPACE c = false.
Proof.
  induction s as [|a s IH]; simpl; [done|].
  destruct (Py_UNICODE_ISSPACE a) eqn:Ha; [done|].
  intros [= <- <-]. done.
Qed.

Lemma lstrip_nil (s : pystr) : lstrip s = [] ↔ whitespace_only s = true.
Proof.
  unfold whitespace_only. induction s as [|a s IH]; simpl; [done|].
  destruct (Py_UNICODE_ISSPACE a); simpl; [done|]. split; done.
Qed.

Lemma whitespace_only_reverse (s : pystr) :
  whitespace_only (reverse s) = whitespace_only s.
Proof.
  unfold whitespace_only. apply eq_true_iff_eq.
  rewrite !forallb_forall. split; intros H x Hx; apply H;
    apply list_elem_of_In; apply list_elem_of_In in Hx;
    by apply elem_of_reverse.
Qed.

Lemma whitespace_only_lstrip (s : pystr) :
  whitespace_only (lstrip s) = whitespace_only s.
Proof.
  unfold whitespace_only. induction s as [|a s IH]; simpl; [done|].
  destruct (Py_UNICODE_ISSPACE a) eqn:Ha; simpl; [done|]. by rewrite Ha.
Qed.

(** [strip] returns the empty string exactly on empty and blank input. *)
Lemma strip_nil (s : pystr) : strip s = [] ↔ whitespace_only s = true.
Proof.
  unfold strip, rstrip.
  rewrite <- (whitespace_only_lstrip s), <- (whitespace_only_reverse (lstrip s)).
  rewrite <- lstrip_nil. split.
  - intros H. apply (f_equal reverse) in H. by rewrite reverse_involutive in H.
  - intros ->. done.
Qed.

(** What [strip] returns is never blank, unless it is empty. *)
Lemma strip_not_blank (s : pystr) :
  strip s ≠ [] → whitespace_only (strip s) = false.
Proof.
  unfold strip, rstrip. intros Hne.
  destruct (lstrip (reverse (lstrip s))) as [|c r] eqn:E; [done|].
  rewrite whitespace_only_reverse. unfold whitespace_only. simpl.
  by rewrite (lstrip_head _ _ _ E).
Qed.

(** ** Validation layer *)

Lemma str_schema_Some lo hi v s :
  str_schema lo hi v = Some s
  ↔ v = JStr s ∧ encodable s = true ∧ lo ≤ length s ≤ hi.
Proof.
  unfold str_schema. destruct v as [| | |s'|]; try (split; [done|by intros [? _]]).
  destruct (encodable s') eqn:Henc, (lo <=? length s') eqn:Hlo,
           (length s' <=? hi) eqn:Hhi; simpl;
    rewrite ?Nat.leb_le, ?Nat.leb_gt in *;
    (split; [intros [= ->]|intros [[= ->] [? ?]]]); try done;
    try lia; congruence.
Qed.

Lemma TaskCreate_validate_title_Some v ti :
  TaskCreate.validate_title v = Some ti
  ↔ ∃ s, v = Some (JStr s) ∧ encodable s = true ∧ 1 ≤ length s ≤ 200
         ∧ strip s ≠ [] ∧ ti = strip s.
Proof.
  unfold TaskCreate.validate_title. destruct v as [v|].
  - split.
    + intros H. apply bind_Some in H as (s & Hs & Ht).
      apply str_schema_Some in Hs as (-> & Henc & Hlen).
      unfold TaskCreate.title_not_whitespace in Ht. case_bool_decide; [done|].
      injection Ht as <-. eauto 10.
    + intros (s & [= ->] & Henc & Hlen & Hne & ->).
      apply bind_Some. exists s. split; [by apply str_schema_Some|].
      unfold TaskCreate.title_not_whitespace. by case_bool_decide.
  - split; [done|]. by intros (s & ? & _).
Qed.

Lemma TaskCreate_validate_Ok payload d :
  TaskCreate.validate payload = Ok d
  ↔ TaskCreate.validate_title (payload !! "title") = Some (TaskCreate.title d)
    ∧ TaskCreate.validate_description (payload !! "description")
      = Some (TaskCreate.description d).
Proof.
  unfold TaskCreate.validate.
  destruct (TaskCreate.validate_title _) as [ti|],
           (TaskCreate.validate_description _) as [de|]; destruct d as [ti' de'];
    simpl; split; try done; try (by intros [? ?]).
  - by intros [= -> ->].
  - by intros [[= ->] [= ->]].
Qed.

Lemma TaskCreate_validate_title_None payload :
  TaskCreate.validate_title (payload !! "title") = None →
  ∃ fields, TaskCreate.validate payload = Raise (ValidationError ("title" :: fields)).
Proof.
  intros H. unfold TaskCreate.validate. rewrite H. simpl.
  destruct (TaskCreate.validate_description _); eauto.
Qed.

(** ** Lookups by primary key *)

Lemma filter_id_absent (l : list Task.t) (x : UUID) :
  x ∉ Task.id <$> l → filter (λ r, Task.id r = x) l = [].
Proof.
  induction l as [|r l IH]; [done|]. rewrite fmap_cons, not_elem_of_cons.
  intros [Hne Hl]. rewrite filter_cons_False by done. auto.
Qed.

Lemma filter_id_unique (l : list Task.t) (old : Task.t) :
  NoDup (Task.id <$> l) → old ∈ l →
  filter (λ r, Task.id r = Task.id old) l = [old].
Proof.
  induction l as [|r l IH]; [by intros _ ?%elem_of_nil|].
  rewrite fmap_cons, NoDup_cons. intros [Hr Hl] [->|Hin]%elem_of_cons.
  - rewrite filter_cons_True by done. by rewrite filter_id_absent.
  - rewrite filter_cons_False; [auto|].
    intros E. apply Hr. rewrite E. by apply list_elem_of_fmap_2.
Qed.

Lemma filter_id_elem (l : list Task.t) (x : UUID) (r : Task.t) :
  r ∈ filter (λ r, Task.id r = x) l → r ∈ l ∧ Task.id r = x.
Proof. rewrite list_elem_of_filter. tauto. Qed.

Ltac io := unfold bind, ret, raise, lift, select_where_id, scalar_one_or_none.

Lemma get_task_absent (w : World) (task_id : UUID) :
  task_id ∉ Task.id <$> table w →
  get_task task_id w = (Raise (TaskNotFoundError task_id), w).
Proof. intros H. unfold get_task. io. by rewrite filter_id_absent. Qed.

Lemma get_task_present (w : World) (old : Task.t) :
  NoDup (Task.id <$> table w) → old ∈ table w →
  get_task (Task.id old) w = (Ok old, w).
Proof. intros Hnd Hin. unfold get_task. io. by rewrite filter_id_unique. Qed.

(** [get_task] never writes, and what it returns is a stored row with the
    requested id. *)
Lemma get_task_inv (w : World) (task_id : UUID) :
  (get_task task_id w).2 = w
  ∧ ∀ task, (get_task task_id w).1 = Ok task →
            task ∈ table w ∧ Task.id task = task_id.
Proof.
  unfold get_task. io.
  destruct (filter _ (table w)) as [|r [|r' l]] eqn:E; simpl; split; try done.
  intros task [= <-]. apply filter_id_elem. rewrite E. apply list_elem_of_here.
Qed.

Lemma refresh_present (w : World) (task : Task.t) :
  NoDup (Task.id <$> table w) → task ∈ table w → refresh task w = (Ok task, w).
Proof. intros Hnd Hin. unfold refresh. io. by rewrite filter_id_unique. Qed.

Lemma refresh_world (w : World) (task : Task.t) : (refresh task w).2 = w.
Proof.
  unfold refresh. io. by destruct (filter _ (table w)) as [|r [|r' l]].
Qed.

(** ** Creation *)

Section Creation.

Context (utcnow : nat → datetime) (uuid4 : nat → UUID).

Lemma refresh_appended (l : list Task.t) (task : Task.t) c u :
  Task.id task ∉ Task.id <$> l →
  refresh task (mkWorld (l ++ [task]) c u) = (Ok task, mkWorld (l ++ [task]) c u).
Proof.
  intros H. unfold refresh. io. simpl.
  rewrite filter_app, filter_id_absent by done.
  rewrite filter_cons_True by done. by rewrite filter_nil.
Qed.

(** [create_task] with its awaits run. *)
Lemma create_task_unfold (task_data : TaskCreate.t) (w : World) :
  create_task utcnow uuid4 task_data w
  = if Task.sendable (created utcnow uuid4 task_data w)
    then if decide (uuid4 (uuid_draws w) ∈ Task.id <$> table w)
         then (Raise IntegrityError,
               mkWorld (table w) (S (S (clock_reads w))) (S (uuid_draws w)))
         else (Ok (created utcnow uuid4 task_data w),
               after_create utcnow uuid4 task_data w)
    else (Raise UnicodeEncodeError,
          mkWorld (table w) (S (S (clock_reads w))) (S (uuid_draws w))).
Proof.
  unfold create_task, Task_init, uuid_uuid4, datetime_utcnow,
    commit_insert, bind, ret. simpl.
  fold (created utcnow uuid4 task_data w).
  destruct (Task.sendable (created utcnow uuid4 task_data w)); [|done]. simpl.
  case_decide as Hin.
  - rewrite bool_decide_false; [done|]. by intros [].
  - rewrite bool_decide_true by done.
    by rewrite (refresh_appended (table w) (created utcnow uuid4 task_data w)).
Qed.

(** A creation returns when the driver can encode the strings and the
    generated id is new. *)
Lemma create_task_fresh (task_data : TaskCreate.t) (w : World) :
  Task.sendable (created utcnow uuid4 task_data w) = true →
  uuid4 (uuid_draws w) ∉ Task.id <$> table w →
  create_task utcnow uuid4 task_data w
  = (Ok (created utcnow uuid4 task_data w), after_create utcnow uuid4 task_data w).
Proof.
  intros Hs H. rewrite create_task_unfold, Hs. by rewrite decide_False.
Qed.

(** A creation that returns has appended exactly the record it returns. *)
Lemma create_task_inv (task_data : TaskCreate.t) (w w' : World) (task : Task.t) :
  create_task utcnow uuid4 task_data w = (Ok task, w') →
  (uuid4 (uuid_draws w) ∉ Task.id <$> table w)
  ∧ task = created utcnow uuid4 task_data w
  ∧ w' = after_create utcnow uuid4 task_data w.
Proof.
  rewrite create_task_unfold.
  destruct (Task.sendable _); [|done]. case_decide; [done|].
  by intros [= <- <-].
Qed.

End Creation.

(** ** Update and deletion *)

Lemma update_where_id_ids (task : Task.t) (l : list Task.t) :
  Task.id <$> update_where_id task l = Task.id <$> l.
Proof.
  unfold update_where_id. rewrite <- list_fmap_compose.
  apply list_fmap_ext. intros i r _. simpl. by case_bool_decide.
Qed.

Lemma update_where_id_new (task old : Task.t) (l : list Task.t) :
  old ∈ l → Task.id old = Task.id task → task ∈ update_where_id task l.
Proof.
  intros Hin E. unfold update_where_id. apply list_elem_of_fmap.
  exists old. by rewrite bool_decide_true.
Qed.

Lemma update_where_id_elem (task r : Task.t) (l : list Task.t) :
  r ∈ update_where_id task l → r = task ∨ r ∈ l.
Proof.
  unfold update_where_id. intros (r' & -> & Hin)%list_elem_of_fmap.
  case_bool_decide; auto.
Qed.

(** Rows with another primary key are left as they are. *)
Lemma update_where_id_other (task r : Task.t) (l : list Task.t) :
  Task.id r ≠ Task.id task → r ∈ l ↔ r ∈ update_where_id task l.
Proof.
  intros Hne. split.
  - intros Hin. unfold update_where_id. apply list_elem_of_fmap.
    exists r. by rewrite bool_decide_false.
  - intros [->|?]%update_where_id_elem; done.
Qed.

Lemma setattr_model_dump (u : TaskUpdate.t) (now : datetime) (old : Task.t) :
  Task.set_updated_at
    (foldl Task.setattr old (TaskUpdate.model_dump_exclude_unset u)) now
  = updated u now old.
Proof.
  unfold TaskUpdate.model_dump_exclude_unset, updated.
  repeat case_bool_decide; reflexivity.
Qed.

Section Update.

Context (utcnow : nat → datetime) (uuid4 : nat → UUID).

(** [update_task] with its awaits run. *)
Lemma update_task_unfold (w : World) (task_id : UUID) (u : TaskUpdate.t) :
  update_task utcnow task_id u w
  = match get_task task_id w with
    | (Ok old, w1) =>
        let new := updated u (utcnow (clock_reads w1)) old in
        if Task.sendable new
        then if Task.not_null new
             then refresh new (mkWorld (update_where_id new (table w1))
                                       (S (clock_reads w1)) (uuid_draws w1))
             else (Raise IntegrityError,
                   mkWorld (table w1) (S (clock_reads w1)) (uuid_draws w1))
        else (Raise UnicodeEncodeError,
              mkWorld (table w1) (S (clock_reads w1)) (uuid_draws w1))
    | (Raise e, w1) => (Raise e, w1)
    end.
Proof.
  unfold update_task, bind, datetime_utcnow, commit_update.
  destruct (get_task task_id w) as [[old|e] w1]; [|done]. simpl.
  rewrite setattr_model_dump.
  destruct (Task.sendable _); [|done]. by destruct (Task.not_null _).
Qed.

Lemma update_task_ok (w : World) (old : Task.t) (u : TaskUpdate.t) :
  NoDup (Task.id <$> table w) → old ∈ table w →
  Task.sendable (updated u (utcnow (clock_reads w)) old) = true →
  Task.not_null (updated u (utcnow (clock_reads w)) old) = true →
  update_task utcnow (Task.id old) u w
  = (Ok (updated u (utcnow (clock_reads w)) old),
     mkWorld (update_where_id (updated u (utcnow (clock_reads w)) old) (table w))
             (S (clock_reads w)) (uuid_draws w)).
Proof.
  intros Hnd Hin Hs Hnn. rewrite update_task_unfold, get_task_present by done.
  simpl. rewrite Hs, Hnn. apply refresh_present; simpl.
  - by rewrite update_where_id_ids.
  - by apply (update_where_id_new _ old).
Qed.

Lemma update_task_refused (w : World) (old : Task.t) (u : TaskUpdate.t) :
  NoDup (Task.id <$> table w) → old ∈ table w →
  Task.sendable (updated u (utcnow (clock_reads w)) old) = true →
  Task.not_null (updated u (utcnow (clock_reads w)) old) = false →
  update_task utcnow (Task.id old) u w
  = (Raise IntegrityError,
     mkWorld (table w) (S (clock_reads w)) (uuid_draws w)).
Proof.
  intros Hnd Hin Hs Hnn. rewrite update_task_unfold, get_task_present by done.
  simpl. by rewrite Hs, Hnn.
Qed.

Lemma update_task_unencodable (w : World) (old : Task.t) (u : TaskUpdate.t) :
  NoDup (Task.id <$> table w) → old ∈ table w →
  Task.sendable (updated u (utcnow (clock_reads w)) old) = false →
  update_task utcnow (Task.id old) u w
  = (Raise UnicodeEncodeError,
     mkWorld (table w) (S (clock_reads w)) (uuid_draws w)).
Proof.
  intros Hnd Hin Hs. rewrite update_task_unfold, get_task_present by done.
  simpl. by rewrite Hs.
Qed.

(** Whatever [update_task] answers, the table is either untouched or has
    had one stored row replaced by a record that passed the NOT NULL
    check. *)
Lemma update_task_table (w : World) (task_id : UUID) (u : TaskUpdate.t) :
  table (update_task utcnow task_id u w).2 = table w
  ∨ ∃ old, old ∈ table w
      ∧ Task.not_null (updated u (utcnow (clock_reads w)) old) = true
      ∧ table (update_task utcnow task_id u w).2
        = update_where_id (updated u (utcnow (clock_reads w)) old) (table w).
Proof.
  rewrite update_task_unfold.
  destruct (get_task_inv w task_id) as [Hw Hin].
  destruct (get_task task_id w) as [[old|e] w1] eqn:E; simpl in *; subst w1;
    [|by left].
  destruct (Hin old eq_refl) as [Hold _].
  destruct (Task.sendable _); [|by left].
  destruct (Task.not_null _) eqn:Hnn; [|by left].
  right. exists old. split_and!; [done..|]. by rewrite refresh_world.
Qed.

Lemma delete_task_ok (w : World) (old : Task.t) :
  NoDup (Task.id <$> table w) → old ∈ table w →
  delete_task (Task.id old) w
  = (Ok (), mkWorld (filter (λ r, Task.id r ≠ Task.id old) (table w))
                    (clock_reads w) (uuid_draws w)).
Proof.
  intros Hnd Hin. unfold delete_task, bind.
  by rewrite get_task_present.
Qed.

Lemma delete_task_table (w : World) (task_id : UUID) :
  table (delete_task task_id w).2 = table w
  ∨ table (delete_task task_id w).2
    = filter (λ r, Task.id r ≠ task_id) (table w).
Proof.
  unfold delete_task, bind.
  destruct (get_task_inv w task_id) as [Hw Hin].
  destruct (get_task task_id w) as [[old|e] w1] eqn:E; simpl in *; subst w1;
    [|by left].
  destruct (Hin old eq_refl) as [_ <-]. by right.
Qed.

End Update.

(** ** Properties of the validation layer *)

(** C1, as amended. The title's length is checked as supplied, before the
    validator trims it: a create input is accepted exactly when its title
    is a string without lone surrogate, of 1 to 200 characters, that is
    not blank (and its description is absent, null or a string); the
    trimmed title, which then has 1 to 200 characters as well, is the
    validated title and the one the service stores. A title that is
    absent, null, empty or blank raises ValidationError on the title
    field, a title of 201 letters is rejected and one of 200 letters is
    accepted. *)
Theorem TaskCreate_title_rule :
  (∀ payload d,
     TaskCreate.validate payload = Ok d
     ↔ ∃ s, payload !! "title" = Some (JStr s)
          ∧ encodable s = true
          ∧ 1 ≤ length s ≤ 200 ∧ whitespace_only s = false
          ∧ TaskCreate.title d = strip s
          ∧ TaskCreate.validate_description (payload !! "description")
            = Some (TaskCreate.description d))
  ∧ (∀ payload d,
       TaskCreate.validate payload = Ok d →
       1 ≤ length (TaskCreate.title d) ≤ 200)
  ∧ (∀ payload,
       payload !! "title" = None ∨ payload !! "title" = Some JNull
       ∨ (∃ s, payload !! "title" = Some (JStr s) ∧ whitespace_only s = true) →
       ∃ fields,
         TaskCreate.validate payload = Raise (ValidationError ("title" :: fields)))
  ∧ TaskCreate.validate {["title" := JStr (replicate 201 97%N)]}
    = Raise (ValidationError ["title"])
  ∧ TaskCreate.validate {["title" := JStr (replicate 200 97%N)]}
    = Ok (TaskCreate.mk (replicate 200 97%N) None)
  ∧ TaskCreate.validate {["title" := JStr [0xD800%N]]}
    = Raise (ValidationError ["title"])
  ∧ (∀ utcnow uuid4 d w task w',
       create_task utcnow uuid4 d w = (Ok task, w') →
       Task.title task = Some (TaskCreate.title d) ∧ task ∈ table w').
Proof.
  assert (Hiff : ∀ payload d,
    TaskCreate.validate payload = Ok d
    ↔ ∃ s, payload !! "title" = Some (JStr s)
         ∧ encodable s = true
         ∧ 1 ≤ length s ≤ 200 ∧ whitespace_only s = false
         ∧ TaskCreate.title d = strip s
         ∧ TaskCreate.validate_description (payload !! "description")
           = Some (TaskCreate.description d)).
  { intros payload d.
    rewrite TaskCreate_validate_Ok, TaskCreate_validate_title_Some. split.
    - intros [(s & Ht & Henc & Hlen & Hne & Hd) Hde]. exists s.
      split_and!; try done; try lia.
      destruct (whitespace_only s) eqn:E; [|done]. apply strip_nil in E. contradiction.
    - intros (s & Ht & Henc & Hlen & Hws & Hd & Hde). split; [|done].
      exists s. split_and!; try done; try lia.
      intros E%strip_nil. congruence. }
  split_and!.
  - exact Hiff.
  - intros payload d (s & _ & _ & Hlen & Hws & -> & _)%Hiff.
    pose proof (strip_length s). split; [|lia].
    destruct (strip s) eqn:E; simpl; [|lia].
    apply strip_nil in E. congruence.
  - intros payload H. apply TaskCreate_validate_title_None.
    destruct (TaskCreate.validate_title (payload !! "title")) as [ti|] eqn:E;
      [|done].
    apply TaskCreate_validate_title_Some in E as (s & Ht & _ & _ & Hne & _).
    destruct H as [H|[H|(s' & H & Hws)]]; rewrite H in Ht; try done.
    injection Ht as ->. apply strip_nil in Hws. contradiction.
  - by vm_compute.
  - by vm_compute.
  - by vm_compute.
  - intros utcnow uuid4 d w task w' (_ & -> & ->)%create_task_inv. split; [done|].
    simpl. apply elem_of_app. right. apply list_elem_of_here.
Qed.

Lemma TaskCreate_title_rule_witness :
  TaskCreate.validate padded_payload
  = Ok (TaskCreate.mk (pystr_of_string "Padded") None)
  ∧ 1 ≤ length (pystr_of_string "Padded") ≤ 200.
Proof.
  assert (H : TaskCreate.validate padded_payload
              = Ok (TaskCreate.mk (pystr_of_string "Padded") None))
    by (by vm_compute).
  exact (conj H (proj1 (proj2 TaskCreate_title_rule) _ _ H)).
Defined.

(** C1, as stated, fails: a title of one space followed by 200 letters has
    200 characters once trimmed, and is rejected for its 201 characters
    as supplied. *)
Lemma title_of_200_after_trim_rejected :
  let s := 32%N :: replicate 200 97%N in
  length (strip s) = 200
  ∧ TaskCreate.validate {["title" := JStr s]} = Raise (ValidationError ["title"])
  ∧ ¬ (1 ≤ length (strip s) ≤ 200
       ↔ ∃ d, TaskCreate.validate {["title" := JStr s]} = Ok d).
Proof.
  assert (E : TaskCreate.validate {["title" := JStr (32%N :: replicate 200 97%N)]}
              = Raise (ValidationError ["title"])) by by vm_compute.
  assert (L : length (strip (32%N :: replicate 200 97%N)) = 200) by by vm_compute.
  cbv zeta. split_and!; [done..|].
  rewrite E, L. intros [H _]. destruct H as [d Hd]; [lia|done].
Qed.

(** ** Properties of the task service *)

(** C2, as amended. Whenever create returns a record (it raises instead
    when the generated id is taken or when the driver cannot encode the
    title or the description), the record has [is_completed] false, its
    [created_at] is the clock reading taken for it and its [updated_at]
    is the next, separate reading; the two timestamps are equal exactly
    when the clock returned the same value twice. *)
Theorem create_task_defaults (utcnow : nat → datetime) (uuid4 : nat → UUID)
    (task_data : TaskCreate.t) (w w' : World) (task : Task.t) :
  create_task utcnow uuid4 task_data w = (Ok task, w') →
  Task.is_completed task = Some false
  ∧ Task.created_at task = utcnow (clock_reads w)
  ∧ Task.updated_at task = utcnow (S (clock_reads w))
  ∧ (Task.created_at task = Task.updated_at task
     ↔ utcnow (clock_reads w) = utcnow (S (clock_reads w))).
Proof. by intros (_ & -> & _)%create_task_inv. Qed.

Lemma create_task_defaults_witness :
  create_task tick serial sample_create empty_world = (Ok sample_task, sample_world)
  ∧ Task.is_completed sample_task = Some false
  ∧ Task.created_at sample_task = tick (clock_reads empty_world)
  ∧ Task.updated_at sample_task = tick (S (clock_reads empty_world))
  ∧ (Task.created_at sample_task = Task.updated_at sample_task
     ↔ tick (clock_reads empty_world) = tick (S (clock_reads empty_world))).
Proof.
  assert (H : create_task tick serial sample_create empty_world
              = (Ok sample_task, sample_world)) by (by vm_compute).
  exact (conj H (create_task_defaults tick serial sample_create empty_world
                   sample_world sample_task H)).
Defined.

(** C2, as stated, fails: the two timestamps come from two readings of the
    clock, and differ as soon as the clock moves between them. *)
Lemma created_at_before_updated_at :
  create_task tick serial sample_create empty_world = (Ok sample_task, sample_world)
  ∧ Task.created_at sample_task ≠ Task.updated_at sample_task.
Proof. split; [by vm_compute|done]. Qed.

(** C6. For an id that no stored record carries, [get_task], [update_task]
    and [delete_task] each raise [TaskNotFoundError] with that id, and
    leave the world, hence every stored record, as it was. *)
Theorem not_found_carries_id (utcnow : nat → datetime) (w : World) (task_id : UUID) :
  task_id ∉ Task.id <$> table w →
  get_task task_id w = (Raise (TaskNotFoundError task_id), w)
  ∧ (∀ task_data,
       update_task utcnow task_id task_data w
       = (Raise (TaskNotFoundError task_id), w))
  ∧ delete_task task_id w = (Raise (TaskNotFoundError task_id), w).
Proof.
  intros H. split_and!.
  - by apply get_task_absent.
  - intros u. by rewrite update_task_unfold, get_task_absent.
  - unfold delete_task, bind. by rewrite get_task_absent.
Qed.

Lemma not_found_carries_id_witness :
  (5%N ∉ Task.id <$> table sample_world)
  ∧ get_task 5%N sample_world = (Raise (TaskNotFoundError 5%N), sample_world)
  ∧ (∀ task_data,
       update_task tick 5%N task_data sample_world
       = (Raise (TaskNotFoundError 5%N), sample_world))
  ∧ delete_task 5%N sample_world = (Raise (TaskNotFoundError 5%N), sample_world).
Proof.
  assert (H : 5%N ∉ Task.id <$> table sample_world) by compute_done.
  exact (conj H (not_found_carries_id tick sample_world 5%N H)).
Defined.

(** C8. For a stored record, [delete_task] returns nothing and removes
    the record from the table, keeping every row with another id; a
    second [delete_task] of the same id raises [TaskNotFoundError]. *)
Theorem delete_task_twice (w : World) (old : Task.t) :
  NoDup (Task.id <$> table w) → old ∈ table w →
  ∃ w',
    delete_task (Task.id old) w = (Ok (), w')
    ∧ table w' = filter (λ r, Task.id r ≠ Task.id old) (table w)
    ∧ (Task.id old ∉ Task.id <$> table w')
    ∧ (∀ r, Task.id r ≠ Task.id old → r ∈ table w ↔ r ∈ table w')
    ∧ delete_task (Task.id old) w'
      = (Raise (TaskNotFoundError (Task.id old)), w').
Proof.
  intros Hnd Hin. eexists. split; [by apply delete_task_ok|]. simpl.
  assert (Hgone : Task.id old ∉ Task.id <$>
                    filter (λ r, Task.id r ≠ Task.id old) (table w)).
  { intros (r & E & [Hne _]%list_elem_of_filter)%list_elem_of_fmap. congruence. }
  split_and!; [done..| |].
  - intros r Hne. rewrite list_elem_of_filter. tauto.
  - unfold delete_task, bind. by rewrite get_task_absent.
Qed.

Lemma delete_task_twice_witness :
  NoDup (Task.id <$> table sample_world) ∧ sample_task ∈ table sample_world
  ∧ ∃ w',
      delete_task (Task.id sample_task) sample_world = (Ok (), w')
      ∧ table w'
        = filter (λ r, Task.id r ≠ Task.id sample_task) (table sample_world)
      ∧ (Task.id sample_task ∉ Task.id <$> table w')
      ∧ (∀ r, Task.id r ≠ Task.id sample_task →
              r ∈ table sample_world ↔ r ∈ table w')
      ∧ delete_task (Task.id sample_task) w'
        = (Raise (TaskNotFoundError (Task.id sample_task)), w').
Proof.
  assert (H1 : NoDup (Task.id <$> table sample_world))
    by compute_done.
  assert (H2 : sample_task ∈ table sample_world) by apply list_elem_of_here.
  exact (conj H1 (conj H2 (delete_task_twice sample_world sample_task H1 H2))).
Defined.



(** ** Properties of updates *)

Lemma storable_not_null (u : TaskUpdate.t) (now : datetime) (old : Task.t) :
  Task.not_null old = true →
  Task.not_null (updated u now old) = true ↔ storable u.
Proof.
  unfold Task.not_null, storable, updated. simpl.
  intros [Ht Hc]%andb_prop. apply bool_decide_eq_true in Ht, Hc.
  rewrite andb_true_iff, !bool_decide_eq_true.
  repeat case_bool_decide; tauto.
Qed.

Lemma db_ok_row (w : World) (old : Task.t) :
  db_ok w → old ∈ table w → Task.not_null old = true.
Proof. intros [_ Hnn] Hin. by apply (proj1 (Forall_forall _ _) Hnn). Qed.

(** The update of a stored row by an input that supplies no null [title]
    or [is_completed], when the driver can encode the strings. *)
Lemma update_task_storable (utcnow : nat → datetime) (w : World)
    (old : Task.t) (u : TaskUpdate.t) :
  db_ok w → old ∈ table w → storable u →
  Task.sendable (updated u (utcnow (clock_reads w)) old) = true →
  update_task utcnow (Task.id old) u w
  = (Ok (updated u (utcnow (clock_reads w)) old),
     mkWorld (update_where_id (updated u (utcnow (clock_reads w)) old) (table w))
             (S (clock_reads w)) (uuid_draws w)).
Proof.
  intros Hok Hin Hst Hs. apply update_task_ok; [apply Hok|done..|].
  apply storable_not_null; [by apply (db_ok_row w)|done].
Qed.

(** The update of a stored row returns only for such an input, and what
    it returns and stores is the row with the supplied fields replaced. *)
Lemma update_task_inv (utcnow : nat → datetime) (w w' : World)
    (old new : Task.t) (u : TaskUpdate.t) :
  db_ok w → old ∈ table w →
  update_task utcnow (Task.id old) u w = (Ok new, w') →
  storable u
  ∧ new = updated u (utcnow (clock_reads w)) old
  ∧ w' = mkWorld (update_where_id (updated u (utcnow (clock_reads w)) old)
                                  (table w))
                 (S (clock_reads w)) (uuid_draws w).
Proof.
  intros Hok Hin Hup.
  destruct (Task.sendable (updated u (utcnow (clock_reads w)) old)) eqn:Hs;
    [|rewrite update_task_unencodable in Hup; [done|apply Hok|done..]].
  destruct (Task.not_null (updated u (utcnow (clock_reads w)) old)) eqn:Hnn;
    [|rewrite update_task_refused in Hup; [done|apply Hok|done..]].
  rewrite update_task_ok in Hup; [|apply Hok|done..].
  injection Hup as <- <-. split; [|done].
  apply (storable_not_null u (utcnow (clock_reads w)) old); [|done].
  by apply (db_ok_row w).
Qed.

Lemma update_task_returns (utcnow : nat → datetime) (w w' : World)
    (old new : Task.t) (u : TaskUpdate.t) :
  db_ok w → old ∈ table w →
  update_task utcnow (Task.id old) u w = (Ok new, w') → storable u.
Proof. intros Hok Hin Hup. by apply (update_task_inv utcnow w w' old new u). Qed.

(** C4, as amended. For every stored record and every update input,
    whenever update returns a record (it raises instead when the input
    supplies a null [title] or a null [is_completed], or a string the
    driver cannot encode), the record it returns and stores has exactly
    the supplied fields set to the input's values; [id], [created_at] and
    every field not supplied are those of the stored record, and
    [updated_at] is the current clock reading, whether or not any value
    differs from the stored one; rows with another id are left as they
    were. *)
Theorem update_task_frame (utcnow : nat → datetime) (w w' : World)
    (old new : Task.t) (u : TaskUpdate.t) :
  db_ok w → old ∈ table w →
  update_task utcnow (Task.id old) u w = (Ok new, w') →
  Task.title new
  = (if bool_decide ("title" ∈ TaskUpdate.model_fields_set u)
     then TaskUpdate.title u else Task.title old)
  ∧ Task.description new
    = (if bool_decide ("description" ∈ TaskUpdate.model_fields_set u)
       then TaskUpdate.description u else Task.description old)
  ∧ Task.is_completed new
    = (if bool_decide ("is_completed" ∈ TaskUpdate.model_fields_set u)
       then TaskUpdate.is_completed u else Task.is_completed old)
  ∧ Task.id new = Task.id old
  ∧ Task.created_at new = Task.created_at old
  ∧ Task.updated_at new = utcnow (clock_reads w)
  ∧ new ∈ table w'
  ∧ (∀ r, Task.id r ≠ Task.id old → r ∈ table w ↔ r ∈ table w')
  ∧ storable u.
Proof.
  intros Hok Hin Hup.
  destruct (update_task_inv utcnow w w' old new u Hok Hin Hup) as (Hst & -> & ->).
  simpl. split_and!; try done.
  - by apply (update_where_id_new _ old).
  - intros r Hne. by apply update_where_id_other.
Qed.

Lemma sample_world_ok : db_ok sample_world.
Proof. split; [compute_done|]. by repeat constructor. Qed.

Lemma update_task_frame_witness :
  db_ok sample_world ∧ sample_task ∈ table sample_world
  ∧ update_task tick (Task.id sample_task) completed_update sample_world
    = (Ok completed_task, completed_world)
  ∧ Task.title completed_task = Task.title sample_task
  ∧ Task.description completed_task = Task.description sample_task
  ∧ Task.is_completed completed_task = Some true
  ∧ Task.id completed_task = Task.id sample_task
  ∧ Task.created_at completed_task = Task.created_at sample_task
  ∧ Task.updated_at completed_task = tick (clock_reads sample_world)
  ∧ completed_task ∈ table completed_world
  ∧ (∀ r, Task.id r ≠ Task.id sample_task →
          r ∈ table sample_world ↔ r ∈ table completed_world)
  ∧ storable completed_update.
Proof.
  assert (H1 : db_ok sample_world) by exact sample_world_ok.
  assert (H2 : sample_task ∈ table sample_world) by apply list_elem_of_here.
  assert (H3 : update_task tick (Task.id sample_task) completed_update sample_world
               = (Ok completed_task, completed_world)) by (by vm_compute).
  exact (conj H1 (conj H2 (conj H3
           (update_task_frame tick sample_world completed_world sample_task
              completed_task completed_update H1 H2 H3)))).
Defined.

(** C4, as stated, fails: an update that supplies [title] as null is a
    valid update input, and for it nothing is applied: the commit is
    refused by the NOT NULL column and the stored record keeps its title
    and its [updated_at]. *)
Lemma update_with_null_title_refused :
  TaskUpdate.validate strict_bool {["title" := JNull]} = Ok null_title_update
  ∧ sample_task ∈ table sample_world
  ∧ update_task tick (Task.id sample_task) null_title_update sample_world
    = (Raise IntegrityError, mkWorld [sample_task] 3 1).
Proof. split_and!; [by vm_compute|apply list_elem_of_here|by vm_compute]. Qed.

(** ** Update inputs *)

Lemma TaskUpdate_validate_Ok bool_schema payload u :
  TaskUpdate.validate bool_schema payload = Ok u →
  TaskUpdate.with_default TaskUpdate.validate_title None (payload !! "title")
  = Some (TaskUpdate.title u)
  ∧ TaskUpdate.with_default nullable_str None (payload !! "description")
    = Some (TaskUpdate.description u)
  ∧ TaskUpdate.with_default (TaskUpdate.validate_is_completed bool_schema) None
      (payload !! "is_completed")
    = Some (TaskUpdate.is_completed u)
  ∧ TaskUpdate.model_fields_set u
    = dom payload ∩ {["title"; "description"; "is_completed"]}.
Proof.
  unfold TaskUpdate.validate.
  destruct (TaskUpdate.with_default TaskUpdate.validate_title _ _),
           (TaskUpdate.with_default nullable_str _ _),
           (TaskUpdate.with_default (TaskUpdate.validate_is_completed _) _ _);
    try done.
  by intros [= <-].
Qed.

(** A field is in [model_fields_set] exactly when the payload has its key. *)
Lemma model_fields_set_spec bool_schema payload u (k : string) :
  TaskUpdate.validate bool_schema payload = Ok u →
  k ∈ ({["title"; "description"; "is_completed"]} : gset string) →
  k ∈ TaskUpdate.model_fields_set u ↔ is_Some (payload !! k).
Proof.
  intros (_ & _ & _ & ->)%TaskUpdate_validate_Ok Hk.
  rewrite elem_of_intersection, elem_of_dom. tauto.
Qed.

(** A validated title is null or a string that is not blank. *)
Lemma TaskUpdate_validate_title bool_schema payload u s :
  TaskUpdate.validate bool_schema payload = Ok u →
  TaskUpdate.title u = Some s →
  s ≠ [] ∧ whitespace_only s = false ∧ length s ≤ 200.
Proof.
  intros (Ht & _)%TaskUpdate_validate_Ok Hs. rewrite Hs in Ht. clear Hs.
  unfold TaskUpdate.with_default in Ht.
  destruct (payload !! "title") as [v|]; [|done].
  unfold TaskUpdate.validate_title in Ht.
  apply bind_Some in Ht as (o & Ho & Ht).
  destruct o as [s0|]; [|done].
  assert (Hs0 : str_schema 1 200 v = Some s0).
  { destruct v; try done; by apply fmap_Some in Ho as (? & ? & [= ->]). }
  apply str_schema_Some in Hs0 as (_ & _ & Hlen).
  simpl in Ht. case_bool_decide; [done|]. injection Ht as <-.
  pose proof (strip_length s0). split_and!; [done|by apply strip_not_blank|lia].
Qed.

(** C5, as amended. On the update path, a request that supplies
    [description] as null and a request that does not carry the key are
    told apart: for a stored record and a valid update body, whenever the
    update returns a record (it raises instead when the body also
    supplies a null [title] or a null [is_completed]), the record it
    returns and stores has a null description when the body had
    [description] null, and has the prior description when the body had
    no [description]. *)
Theorem update_description_null_or_absent (utcnow : nat → datetime)
    (bool_schema : json → option bool) (w w' : World) (old new : Task.t)
    (payload : gmap string json) (u : TaskUpdate.t) :
  db_ok w → old ∈ table w →
  TaskUpdate.validate bool_schema payload = Ok u →
  update_task utcnow (Task.id old) u w = (Ok new, w') →
  new ∈ table w'
  ∧ storable u
  ∧ (payload !! "description" = Some JNull → Task.description new = None)
  ∧ (payload !! "description" = None →
     Task.description new = Task.description old).
Proof.
  intros Hok Hin Hv Hup.
  destruct (update_task_inv utcnow w w' old new u Hok Hin Hup) as (Hst & -> & ->).
  simpl.
  pose proof (model_fields_set_spec _ _ _ "description" Hv) as Hfs.
  destruct (TaskUpdate_validate_Ok _ _ _ Hv) as (_ & Hd & _).
  split_and!.
  - by apply (update_where_id_new _ old).
  - done.
  - intros E. rewrite E in Hd, Hfs. injection Hd as <-.
    rewrite bool_decide_true; [done|]. apply Hfs; [set_solver|by eexists].
  - intros E. rewrite E in Hfs.
    rewrite bool_decide_false; [done|].
    intros Hin'. apply Hfs in Hin'; [by destruct Hin'|set_solver].
Qed.

Lemma update_description_null_or_absent_witness :
  db_ok sample_world ∧ sample_task ∈ table sample_world
  ∧ TaskUpdate.validate strict_bool clear_description
    = Ok (TaskUpdate.mk None None None {["description"]})
  ∧ update_task tick (Task.id sample_task)
      (TaskUpdate.mk None None None {["description"]}) sample_world
    = (Ok cleared_task, cleared_world)
  ∧ cleared_task ∈ table cleared_world
  ∧ storable (TaskUpdate.mk None None None {["description"]})
  ∧ (clear_description !! "description" = Some JNull →
     Task.description cleared_task = None)
  ∧ (clear_description !! "description" = None →
     Task.description cleared_task = Task.description sample_task).
Proof.
  assert (H1 : db_ok sample_world) by exact sample_world_ok.
  assert (H2 : sample_task ∈ table sample_world) by apply list_elem_of_here.
  assert (H3 : TaskUpdate.validate strict_bool clear_description
               = Ok (TaskUpdate.mk None None None {["description"]}))
    by (by vm_compute).
  assert (H4 : update_task tick (Task.id sample_task)
                 (TaskUpdate.mk None None None {["description"]}) sample_world
               = (Ok cleared_task, cleared_world)) by (by vm_compute).
  exact (conj H1 (conj H2 (conj H3 (conj H4
           (update_description_null_or_absent tick strict_bool sample_world
              cleared_world sample_task cleared_task clear_description _
              H1 H2 H3 H4))))).
Defined.

(** C5, as stated, fails: a body that supplies [description] as null and
    [title] as null as well is a valid update input; the update raises at
    the commit, no record is yielded and the stored description stays as
    it was, not null. *)
Lemma null_description_with_null_title_kept :
  TaskUpdate.validate strict_bool clear_description_and_title
  = Ok (TaskUpdate.mk None None None {["description"; "title"]})
  ∧ sample_task ∈ table sample_world
  ∧ Task.description sample_task ≠ None
  ∧ update_task tick (Task.id sample_task)
      (TaskUpdate.mk None None None {["description"; "title"]}) sample_world
    = (Raise IntegrityError, mkWorld [sample_task] 3 1).
Proof.
  split_and!; [by vm_compute|apply list_elem_of_here|done|by vm_compute].
Qed.

(** The body [{"description": null}] on the sample record, run. *)
Example clear_description_trace :
  put_tasks_id tick strict_bool 0%N clear_description sample_world
  = (Ok (task_body
           (TaskResponse.mk 0%N (pystr_of_string "Write documentation") None
                            false 0%Z 2%Z)),
     mkWorld [Task.mk 0%N (Some (pystr_of_string "Write documentation")) None
                      (Some false) 0%Z 2%Z] 3 1).
Proof. by vm_compute. Qed.

(** ** Listing *)

#[local] Instance created_at_desc_total : Total Task.created_at_desc.
Proof. intros a b. unfold Task.created_at_desc. lia. Qed.

#[local] Instance created_at_desc_trans : Transitive Task.created_at_desc.
Proof. intros a b c. unfold Task.created_at_desc. lia. Qed.

(** Creations in a row that all return have appended the records they
    return, in order; under an advancing clock these come in strictly
    increasing order of [created_at]. *)
Lemma create_all_inv (utcnow : nat → datetime) (uuid4 : nat → UUID)
    (inputs : list TaskCreate.t) (w w' : World) (tasks : list Task.t) :
  create_all utcnow uuid4 inputs w = (Ok tasks, w') →
  table w' = table w ++ tasks
  ∧ length tasks = length inputs
  ∧ (increasing utcnow →
     Sorted created_before tasks
     ∧ Forall (λ t, ∃ i, clock_reads w ≤ i ∧ Task.created_at t = utcnow i) tasks).
Proof.
  revert w tasks. induction inputs as [|d ds IH]; intros w tasks H; simpl in H.
  - injection H as <- <-. rewrite app_nil_r. by repeat constructor.
  - unfold bind, ret in H.
    destruct (create_task utcnow uuid4 d w) as [[t|e] w1] eqn:E1; [|done].
    destruct (create_all utcnow uuid4 ds w1) as [[ts|e] w2] eqn:E2; [|done].
    injection H as <- <-.
    apply create_task_inv in E1 as (_ & -> & ->).
    destruct (IH _ _ E2) as (Htab & Hlen & Hinc). simpl in Htab.
    split_and!.
    + rewrite Htab. simpl. by rewrite <- app_assoc.
    + simpl. lia.
    + intros Hi. destruct (Hinc Hi) as [Hsorted Hstamps]. split.
      * constructor; [done|]. destruct Hstamps as [|t ts' (i & Hle & Ht) _];
          constructor. unfold created_before. rewrite Ht. simpl.
        apply Hi. simpl in Hle. lia.
      * constructor; [by exists (clock_reads w)|].
        eapply Forall_impl; [done|]. intros t (i & Hle & Ht).
        exists i. simpl in Hle. split; [lia|done].
Qed.

(** C7. In every world [list_tasks] returns, without raising, all stored
    records and only them, each as often as it is stored, ordered by
    [created_at] descending; on an empty table it returns the empty list.
    After n creations in the empty world that each returned a record, it
    returns exactly these n records in that order. *)
Theorem list_tasks_newest_first :
  (∀ w, ∃ tasks,
     list_tasks w = (Ok tasks, w)
     ∧ tasks ≡ₚ table w
     ∧ StronglySorted (λ a b, (Task.created_at b ≤ Task.created_at a)%Z) tasks
     ∧ (table w = [] → tasks = []))
  ∧ (∀ utcnow uuid4 inputs created w,
       create_all utcnow uuid4 inputs empty_world = (Ok created, w) →
       ∃ tasks,
         list_tasks w = (Ok tasks, w)
         ∧ length tasks = length inputs
         ∧ tasks ≡ₚ created
         ∧ StronglySorted (λ a b, (Task.created_at b ≤ Task.created_at a)%Z)
                          tasks).
Proof.
  assert (Hlist : ∀ w, ∃ tasks,
     list_tasks w = (Ok tasks, w)
     ∧ tasks ≡ₚ table w
     ∧ StronglySorted (λ a b, (Task.created_at b ≤ Task.created_at a)%Z) tasks
     ∧ (table w = [] → tasks = [])).
  { intros w. exists (merge_sort Task.created_at_desc (table w)).
    split_and!; [done| | |].
    - apply merge_sort_Permutation.
    - apply (StronglySorted_merge_sort Task.created_at_desc).
    - by intros ->. }
  split; [exact Hlist|].
  intros utcnow uuid4 inputs created w Hc.
  destruct (create_all_inv utcnow uuid4 inputs empty_world w created Hc)
    as (Htab & Hlen & _).
  destruct (Hlist w) as (tasks & Hl & Hperm & Hsorted & _).
  simpl in Htab. rewrite Htab in Hperm.
  exists tasks. split_and!; try done.
  by rewrite Hperm.
Qed.

Lemma list_tasks_newest_first_witness :
  create_all tick serial three_creations empty_world = (Ok three_tasks, three_world)
  ∧ ∃ tasks,
      list_tasks three_world = (Ok tasks, three_world)
      ∧ length tasks = 3
      ∧ tasks ≡ₚ three_tasks
      ∧ StronglySorted (λ a b, (Task.created_at b ≤ Task.created_at a)%Z) tasks.
Proof.
  assert (H : create_all tick serial three_creations empty_world
              = (Ok three_tasks, three_world)) by (by vm_compute).
  exact (conj H (proj2 list_tasks_newest_first tick serial three_creations
                   three_tasks three_world H)).
Defined.

(** ** Requests *)

Lemma bind_lift_world {A B C} (m : IO A) (f : A → result B) (g : B → C) (w : World) :
  (bind m (λ a, bind (lift (f a)) (λ b, ret (g b))) w).2 = (m w).2.
Proof.
  unfold bind, lift, ret. destruct (m w) as [[a|e] w1]; [|done].
  by destruct (f a).
Qed.

Section Requests.

Context (utcnow : nat → datetime) (uuid4 : nat → UUID)
        (bool_schema : json → option bool).

(** [post_tasks] with its awaits run. *)
Lemma post_tasks_unfold (payload : gmap string json) (w : World) :
  post_tasks utcnow uuid4 payload w
  = match TaskCreate.validate payload with
    | Ok d =>
        if Task.sendable (created utcnow uuid4 d w)
        then if decide (uuid4 (uuid_draws w) ∈ Task.id <$> table w)
             then (Raise IntegrityError,
                   mkWorld (table w) (S (S (clock_reads w))) (S (uuid_draws w)))
             else (Ok (task_body
                         (TaskResponse.mk (uuid4 (uuid_draws w))
                            (TaskCreate.title d) (TaskCreate.description d) false
                            (utcnow (clock_reads w)) (utcnow (S (clock_reads w))))),
                   after_create utcnow uuid4 d w)
        else (Raise UnicodeEncodeError,
              mkWorld (table w) (S (S (clock_reads w))) (S (uuid_draws w)))
    | Raise e => (Raise e, w)
    end.
Proof.
  unfold post_tasks. unfold bind at 1. unfold lift at 1.
  destruct (TaskCreate.validate payload) as [d|e]; [|done].
  unfold bind at 1. rewrite create_task_unfold.
  destruct (Task.sendable _); [|done]. by case_decide.
Qed.

(** The world a request leaves behind. *)
Lemma handle_world (r : request) (w : World) :
  (handle utcnow uuid4 bool_schema r w).2
  = match r with
    | POST payload => (post_tasks utcnow uuid4 payload w).2
    | GET_all | GET _ => w
    | PUT task_id payload =>
        match TaskUpdate.validate bool_schema payload with
        | Ok u => (update_task utcnow task_id u w).2
        | Raise _ => w
        end
    | DELETE task_id => (delete_task task_id w).2
    end.
Proof.
  destruct r as [payload| |task_id|task_id payload|task_id]; simpl.
  - done.
  - unfold get_tasks. by rewrite bind_lift_world.
  - unfold get_tasks_id. rewrite bind_lift_world.
    by rewrite (proj1 (get_task_inv w task_id)).
  - unfold put_tasks_id. unfold bind at 1. unfold lift at 1.
    destruct (TaskUpdate.validate bool_schema payload) as [u|e]; [|done].
    by rewrite bind_lift_world.
  - unfold delete_tasks_id, bind, ret.
    by destruct (delete_task task_id w) as [[[]|e] w1].
Qed.

(** What a request can do to the table. *)
Lemma handle_table (r : request) (w w' : World) :
  (handle utcnow uuid4 bool_schema r w).2 = w' →
  table w' = table w
  ∨ (∃ payload d,
       r = POST payload ∧ TaskCreate.validate payload = Ok d
       ∧ (uuid4 (uuid_draws w) ∉ Task.id <$> table w)
       ∧ table w' = table w ++ [created utcnow uuid4 d w])
  ∨ (∃ task_id payload u old,
       r = PUT task_id payload
       ∧ TaskUpdate.validate bool_schema payload = Ok u
       ∧ old ∈ table w
       ∧ Task.not_null (updated u (utcnow (clock_reads w)) old) = true
       ∧ table w'
         = update_where_id (updated u (utcnow (clock_reads w)) old) (table w))
  ∨ (∃ task_id,
       r = DELETE task_id
       ∧ table w' = filter (λ r, Task.id r ≠ task_id) (table w)).
Proof.
  rewrite handle_world. intros <-.
  destruct r as [payload| |task_id|task_id payload|task_id].
  - rewrite post_tasks_unfold.
    destruct (TaskCreate.validate payload) as [d|e] eqn:E; [|by left].
    destruct (Task.sendable _); [|by left].
    case_decide; [by left|]. right; left. by exists payload, d.
  - by left.
  - by left.
  - destruct (TaskUpdate.validate bool_schema payload) as [u|e] eqn:E;
      [|by left].
    destruct (update_task_table utcnow w task_id u)
      as [H|(old & Hin & Hnn & H)]; [by left|].
    right; right; left. by exists task_id, payload, u, old.
  - destruct (delete_task_table w task_id) as [H|H]; [by left|].
    right; right; right. by exists task_id.
Qed.

(** The declared constraints hold in every world the service reaches. *)
Lemma handle_db_ok (r : request) (w : World) :
  db_ok w → db_ok (handle utcnow uuid4 bool_schema r w).2.
Proof.
  intros [Hnd Hnn]. unfold db_ok.
  destruct (handle_table r w _ eq_refl)
    as [->|[(payload & d & _ & _ & Hfresh & ->)
           |[(task_id & payload & u & old & _ & _ & Hin & Hnew & ->)
            |(task_id & _ & ->)]]].
  - done.
  - rewrite fmap_app, Forall_app. split.
    + apply NoDup_app. split_and!; [done| |apply NoDup_singleton].
      intros x Hx [->|[]%elem_of_nil]%elem_of_cons. done.
    + split; [done|]. by repeat constructor.
  - rewrite update_where_id_ids. split; [done|].
    apply Forall_forall. intros r' [->|Hr']%update_where_id_elem; [done|].
    by apply (proj1 (Forall_forall _ _) Hnn).
  - split.
    + apply (sublist_NoDup _ _ Hnd). apply fmap_sublist, sublist_filter.
    + apply Forall_forall. intros r' [_ Hr']%list_elem_of_filter.
      by apply (proj1 (Forall_forall _ _) Hnn).
Qed.

Lemma serve_db_ok (rs : list request) (w : World) :
  db_ok w → db_ok (serve utcnow uuid4 bool_schema rs w).
Proof.
  revert w. induction rs as [|r rs IH]; intros w Hw; [done|].
  apply IH. by apply handle_db_ok.
Qed.

Lemma handle_title_ok (r : request) (w : World) :
  Forall title_ok (table w) →
  Forall title_ok (table (handle utcnow uuid4 bool_schema r w).2).
Proof.
  intros Hinv.
  destruct (handle_table r w _ eq_refl)
    as [->|[(payload & d & _ & Hd & _ & ->)
           |[(task_id & payload & u & old & _ & Hu & Hin & Hnew & ->)
            |(task_id & _ & ->)]]].
  - done.
  - apply Forall_app. split; [done|]. repeat constructor.
    apply TaskCreate_validate_Ok in Hd as [Ht _].
    apply TaskCreate_validate_title_Some in Ht as (s & _ & _ & _ & Hne & Ht).
    exists (strip s). unfold created. simpl. rewrite Ht.
    split_and!; [done|done|by apply strip_not_blank].
  - apply Forall_forall. intros r' [->|Hr']%update_where_id_elem;
      [|by apply (proj1 (Forall_forall _ _) Hinv)].
    unfold title_ok, updated. simpl. case_bool_decide.
    + apply andb_prop in Hnew as [[s Hs]%bool_decide_eq_true _].
      unfold updated in Hs. simpl in Hs. rewrite bool_decide_true in Hs by done.
      exists s. split; [done|].
      destruct (TaskUpdate_validate_title _ _ _ _ Hu Hs) as (? & ? & _). done.
    + by apply (proj1 (Forall_forall _ _) Hinv).
  - apply Forall_forall. intros r' [_ Hr']%list_elem_of_filter.
    by apply (proj1 (Forall_forall _ _) Hinv).
Qed.

End Requests.

(** ** Properties of client sessions *)

(** C3. Whatever requests are served (creations, updates, deletions and
    reads, with any bodies), the stored titles stay strings with at least
    one character that is not whitespace: if this holds of every stored
    record before, it holds of every stored record after. An update whose
    body passes validation with [title] null is no exception: its commit
    is refused and the stored title remains. *)
Theorem persisted_titles_never_blank (utcnow : nat → datetime)
    (uuid4 : nat → UUID) (bool_schema : json → option bool)
    (rs : list request) (w : World) :
  Forall title_ok (table w) →
  Forall title_ok (table (serve utcnow uuid4 bool_schema rs w)).
Proof.
  revert w. induction rs as [|r rs IH]; intros w Hw; [done|].
  apply IH. by apply handle_title_ok.
Qed.

Lemma persisted_titles_never_blank_witness :
  Forall title_ok (table empty_world)
  ∧ Forall title_ok
      (table (serve tick serial strict_bool sample_requests empty_world)).
Proof.
  assert (H : Forall title_ok (table empty_world)) by constructor.
  exact (conj H (persisted_titles_never_blank tick serial strict_bool
                   sample_requests empty_world H)).
Defined.

(** C10. A create request decides the title and the description only:
    whenever the create endpoint answers a body with a record, that record
    and the stored one have [is_completed] false, the generated id and the
    two clock readings, the validated title and description, and adding
    any other key ([is_completed], [id], a timestamp, ...) with any value
    to the body changes neither the answer nor the world. *)
Theorem post_tasks_server_fields (utcnow : nat → datetime) (uuid4 : nat → UUID)
    (payload : gmap string json) (k : string) (v : json)
    (w w' : World) (resp : response) :
  k ≠ "title" → k ≠ "description" →
  post_tasks utcnow uuid4 payload w = (Ok resp, w') →
  ∃ r d,
    resp = task_body r
    ∧ TaskCreate.validate payload = Ok d
    ∧ post_tasks utcnow uuid4 (<[k:=v]> payload) w = (Ok resp, w')
    ∧ TaskResponse.is_completed r = false
    ∧ TaskResponse.id r = uuid4 (uuid_draws w)
    ∧ TaskResponse.created_at r = utcnow (clock_reads w)
    ∧ TaskResponse.updated_at r = utcnow (S (clock_reads w))
    ∧ TaskResponse.title r = TaskCreate.title d
    ∧ TaskResponse.description r = TaskCreate.description d
    ∧ TaskResponse.model_validate <$> last (table w') = Some (Ok r).
Proof.
  intros Hk1 Hk2 H.
  assert (E : TaskCreate.validate (<[k:=v]> payload) = TaskCreate.validate payload).
  { unfold TaskCreate.validate. by rewrite !lookup_insert_ne. }
  rewrite !post_tasks_unfold, E. rewrite post_tasks_unfold in H.
  destruct (TaskCreate.validate payload) as [d|e]; [|done].
  destruct (Task.sendable _); [|done].
  case_decide; [done|]. injection H as <- <-.
  eexists _, d. split_and!; try done. simpl. by rewrite last_snoc.
Qed.

Lemma post_tasks_server_fields_witness :
  "is_completed" ≠ "title" ∧ "is_completed" ≠ "description"
  ∧ post_tasks tick serial sample_payload empty_world
    = (Ok (task_body deployed_response), deployed_world)
  ∧ ∃ r d,
      task_body deployed_response = task_body r
      ∧ TaskCreate.validate sample_payload = Ok d
      ∧ post_tasks tick serial (<["is_completed":=JBool true]> sample_payload)
          empty_world
        = (Ok (task_body deployed_response), deployed_world)
      ∧ TaskResponse.is_completed r = false
      ∧ TaskResponse.id r = serial (uuid_draws empty_world)
      ∧ TaskResponse.created_at r = tick (clock_reads empty_world)
      ∧ TaskResponse.updated_at r = tick (S (clock_reads empty_world))
      ∧ TaskResponse.title r = TaskCreate.title d
      ∧ TaskResponse.description r = TaskCreate.description d
      ∧ TaskResponse.model_validate <$> last (table deployed_world) = Some (Ok r).
Proof.
  assert (H1 : "is_completed" ≠ "title") by discriminate.
  assert (H2 : "is_completed" ≠ "description") by discriminate.
  assert (H3 : post_tasks tick serial sample_payload empty_world
               = (Ok (task_body deployed_response), deployed_world))
    by (by vm_compute).
  exact (conj H1 (conj H2 (conj H3
           (post_tasks_server_fields tick serial sample_payload
              "is_completed" (JBool true) empty_world deployed_world _
              H1 H2 H3)))).
Defined.

(** The sample session, run: the padded title is stored trimmed, the
    update with a null title and the one with a blank title leave the
    record alone, the last update clears the description. *)
Example sample_session_trace :
  serve tick serial strict_bool sample_requests empty_world
  = mkWorld [Task.mk 0%N (Some (pystr_of_string "Padded")) None (Some false)
                     0%Z 3%Z] 4 1.
Proof. by vm_compute. Qed.

(** ** More on the validation layer *)

Lemma lstrip_suffix (s : pystr) : ∃ k, s = k ++ lstrip s.
Proof.
  induction s as [|c s [k IH]]; [by exists []|]. simpl.
  destruct (Py_UNICODE_ISSPACE c); [|by exists []].
  exists (c :: k). simpl. by rewrite <- IH.
Qed.

Lemma lstrip_lstrip (s : pystr) : lstrip (lstrip s) = lstrip s.
Proof.
  destruct (lstrip s) as [|c r] eqn:E; [done|].
  simpl. by rewrite (lstrip_head _ _ _ E).
Qed.

(** Stripping twice is stripping once. *)
Lemma strip_strip (s : pystr) : strip (strip s) = strip s.
Proof.
  unfold strip at 1. set (t := strip s).
  assert (Hl : lstrip t = t).
  { subst t. unfold strip, rstrip.
    destruct (lstrip_suffix (reverse (lstrip s))) as [k Hk].
    apply (f_equal reverse) in Hk.
    rewrite reverse_involutive, reverse_app in Hk.
    destruct (reverse (lstrip (reverse (lstrip s)))) as [|c r] eqn:E; [done|].
    simpl in Hk. simpl. by rewrite (lstrip_head _ _ _ Hk). }
  rewrite Hl. subst t. unfold strip, rstrip.
  by rewrite reverse_involutive, lstrip_lstrip.
Qed.

(** Stripping removes code points and adds none: what could be encoded
    still can. *)
Lemma encodable_Forall (s : pystr) :
  encodable s = true ↔ Forall (λ c, is_surrogate c = false) s.
Proof.
  unfold encodable. induction s as [|c s IH]; simpl.
  - split; [constructor|done].
  - rewrite andb_true_iff, negb_true_iff, IH, Forall_cons. done.
Qed.

Lemma encodable_lstrip (s : pystr) :
  encodable s = true → encodable (lstrip s) = true.
Proof.
  rewrite !encodable_Forall. destruct (lstrip_suffix s) as [k Hk].
  intros H. rewrite Hk in H. by apply Forall_app in H as [_ H].
Qed.

Lemma encodable_reverse (s : pystr) :
  encodable s = true → encodable (reverse s) = true.
Proof. rewrite !encodable_Forall. apply Forall_reverse. Qed.

Lemma encodable_strip (s : pystr) :
  encodable s = true → encodable (strip s) = true.
Proof.
  intros H. unfold strip, rstrip.
  by apply encodable_reverse, encodable_lstrip, encodable_reverse,
    encodable_lstrip.
Qed.

(** X1. What the validation layer accepts as a title is in normal form:
    the validated title of an accepted create input is unchanged by
    [strip], and submitting it again, to the create schema or to the
    update schema, is accepted and yields the same title. *)
Theorem validated_title_is_canonical (payload : gmap string json) (d : TaskCreate.t) :
  TaskCreate.validate payload = Ok d →
  strip (TaskCreate.title d) = TaskCreate.title d
  ∧ TaskCreate.validate_title (Some (JStr (TaskCreate.title d)))
    = Some (TaskCreate.title d)
  ∧ TaskUpdate.validate_title (JStr (TaskCreate.title d))
    = Some (Some (TaskCreate.title d)).
Proof.
  intros [Ht _]%TaskCreate_validate_Ok.
  apply TaskCreate_validate_title_Some in Ht as (s & _ & Henc & Hlen & Hne & ->).
  pose proof (strip_length s) as Hle.
  pose proof (encodable_strip s Henc) as Henc'.
  assert (Hlen' : 1 ≤ length (strip s) ≤ 200).
  { split; [|lia]. destruct (strip s); [done|simpl; lia]. }
  assert (Hs : str_schema 1 200 (JStr (strip s)) = Some (strip s))
    by by apply str_schema_Some.
  split_and!.
  - apply strip_strip.
  - apply TaskCreate_validate_title_Some. exists (strip s).
    rewrite strip_strip. done.
  - unfold TaskUpdate.validate_title. rewrite Hs. simpl.
    rewrite strip_strip. by rewrite bool_decide_false.
Qed.

Lemma validated_title_is_canonical_witness :
  TaskCreate.validate padded_payload
  = Ok (TaskCreate.mk (pystr_of_string "Padded") None)
  ∧ strip (pystr_of_string "Padded") = pystr_of_string "Padded"
  ∧ TaskCreate.validate_title (Some (JStr (pystr_of_string "Padded")))
    = Some (pystr_of_string "Padded")
  ∧ TaskUpdate.validate_title (JStr (pystr_of_string "Padded"))
    = Some (Some (pystr_of_string "Padded")).
Proof.
  assert (H : TaskCreate.validate padded_payload
              = Ok (TaskCreate.mk (pystr_of_string "Padded") None))
    by (by vm_compute).
  exact (conj H (validated_title_is_canonical padded_payload _ H)).
Defined.

(** X2. The update schema applies to a supplied title the rule of the
    create schema, with one exception: null, which the create schema
    rejects, is accepted and kept as null. *)
Theorem update_title_rule (v : json) :
  TaskUpdate.validate_title v
  = match v with
    | JNull => Some None
    | _ => Some <$> TaskCreate.validate_title (Some v)
    end
  ∧ TaskCreate.validate_title (Some JNull) = None.
Proof.
  split; [|done].
  unfold TaskUpdate.validate_title, TaskCreate.validate_title.
  destruct v as [| | |s|]; try done.
  destruct (str_schema 1 200 (JStr s)) as [s'|]; [|done]. simpl.
  unfold TaskCreate.title_not_whitespace. by case_bool_decide.
Qed.

(** X3. The create schema takes any string as description, whatever its
    length and content, and keeps it as it is (it is not trimmed); a null
    description and a missing one are the same input. None of this bears
    on whether the input is accepted. *)
Theorem create_description_verbatim (payload : gmap string json)
    (d : TaskCreate.t) (s : pystr) :
  TaskCreate.validate payload = Ok d →
  TaskCreate.validate (<["description" := JStr s]> payload)
  = Ok (TaskCreate.mk (TaskCreate.title d) (Some s))
  ∧ TaskCreate.validate (<["description" := JNull]> payload)
    = Ok (TaskCreate.mk (TaskCreate.title d) None)
  ∧ TaskCreate.validate (delete "description" payload)
    = Ok (TaskCreate.mk (TaskCreate.title d) None).
Proof.
  intros [Ht _]%TaskCreate_validate_Ok. unfold TaskCreate.validate.
  split_and!.
  - by rewrite lookup_insert_ne, lookup_insert_eq, Ht.
  - by rewrite lookup_insert_ne, lookup_insert_eq, Ht.
  - by rewrite lookup_delete_ne, lookup_delete_eq, Ht.
Qed.

Lemma create_description_verbatim_witness :
  TaskCreate.validate padded_payload
  = Ok (TaskCreate.mk (pystr_of_string "Padded") None)
  ∧ TaskCreate.validate
      (<["description" := JStr (pystr_of_string "  ")]> padded_payload)
    = Ok (TaskCreate.mk (pystr_of_string "Padded") (Some (pystr_of_string "  ")))
  ∧ TaskCreate.validate (<["description" := JNull]> padded_payload)
    = Ok (TaskCreate.mk (pystr_of_string "Padded") None)
  ∧ TaskCreate.validate (delete "description" padded_payload)
    = Ok (TaskCreate.mk (pystr_of_string "Padded") None).
Proof.
  assert (H : TaskCreate.validate padded_payload
              = Ok (TaskCreate.mk (pystr_of_string "Padded") None))
    by (by vm_compute).
  exact (conj H (create_description_verbatim padded_payload _
                   (pystr_of_string "  ") H)).
Defined.

(** ** Worlds the service reaches *)

Section Reach.

Context (utcnow : nat → datetime) (uuid4 : nat → UUID)
        (bool_schema : json → option bool).

(** The world [update_task] leaves behind. *)
Lemma update_task_world (w : World) (task_id : UUID) (u : TaskUpdate.t) :
  (table (update_task utcnow task_id u w).2 = table w
   ∧ clock_reads w ≤ clock_reads (update_task utcnow task_id u w).2)
  ∨ ∃ old, old ∈ table w ∧ Task.id old = task_id
      ∧ Task.not_null (updated u (utcnow (clock_reads w)) old) = true
      ∧ (update_task utcnow task_id u w).2
        = mkWorld (update_where_id (updated u (utcnow (clock_reads w)) old)
                                   (table w))
                  (S (clock_reads w)) (uuid_draws w).
Proof.
  rewrite update_task_unfold.
  destruct (get_task_inv w task_id) as [Hw Hin].
  destruct (get_task task_id w) as [[old|e] w1] eqn:E; simpl in *; subst w1;
    [|left; split; [done|lia]].
  destruct (Hin old eq_refl) as [Hold Hid].
  destruct (Task.sendable _); [|left; simpl; split; [done|lia]].
  destruct (Task.not_null _) eqn:Hnn; [|left; simpl; split; [done|lia]].
  right. exists old. split_and!; [done..|]. by rewrite refresh_world.
Qed.

(** What a request can do to the world. *)
Lemma handle_cases (r : request) (w w' : World) :
  (handle utcnow uuid4 bool_schema r w).2 = w' →
  (table w' = table w ∧ clock_reads w ≤ clock_reads w')
  ∨ (∃ payload d,
       r = POST payload ∧ TaskCreate.validate payload = Ok d
       ∧ (uuid4 (uuid_draws w) ∉ Task.id <$> table w)
       ∧ w' = after_create utcnow uuid4 d w)
  ∨ (∃ task_id payload u old,
       r = PUT task_id payload
       ∧ TaskUpdate.validate bool_schema payload = Ok u
       ∧ old ∈ table w ∧ Task.id old = task_id
       ∧ Task.not_null (updated u (utcnow (clock_reads w)) old) = true
       ∧ w' = mkWorld (update_where_id (updated u (utcnow (clock_reads w)) old)
                                       (table w))
                      (S (clock_reads w)) (uuid_draws w))
  ∨ (∃ task_id old,
       r = DELETE task_id ∧ old ∈ table w ∧ Task.id old = task_id
       ∧ w' = mkWorld (filter (λ r, Task.id r ≠ task_id) (table w))
                      (clock_reads w) (uuid_draws w)).
Proof.
  rewrite handle_world. intros <-.
  destruct r as [payload| |task_id|task_id payload|task_id].
  - rewrite post_tasks_unfold.
    destruct (TaskCreate.validate payload) as [d|e] eqn:E; [|by left].
    destruct (Task.sendable _); [|left; simpl; split; [done|lia]].
    case_decide; [left; simpl; split; [done|lia]|].
    right; left. by exists payload, d.
  - by left.
  - by left.
  - destruct (TaskUpdate.validate bool_schema payload) as [u|e] eqn:E;
      [|by left].
    destruct (update_task_world w task_id u)
      as [H|(old & Hin & Hid & Hnn & H)]; [by left|].
    right; right; left. by exists task_id, payload, u, old.
  - unfold delete_task, bind.
    destruct (get_task_inv w task_id) as [Hw Hin].
    destruct (get_task task_id w) as [[old|e] w1] eqn:E; simpl in *; subst w1;
      [|by left].
    destruct (Hin old eq_refl) as [Hold Hid].
    right; right; right. exists task_id, old. by rewrite Hid.
Qed.

Lemma stamped_later (w w' : World) (r : Task.t) :
  clock_reads w ≤ clock_reads w' → stamped utcnow w r → stamped utcnow w' r.
Proof. intros Hle (i & j & Hij & Hc & Hu). exists i, j. split; [lia|done]. Qed.

(** Every stored timestamp is a reading the clock has given, the one of
    [created_at] no later than the one of [updated_at]. *)
Lemma handle_stamped (r : request) (w : World) :
  Forall (stamped utcnow w) (table w) →
  Forall (stamped utcnow (handle utcnow uuid4 bool_schema r w).2)
         (table (handle utcnow uuid4 bool_schema r w).2).
Proof.
  intros Hinv.
  assert (Hrow : ∀ row, row ∈ table w → stamped utcnow w row)
    by by apply Forall_forall.
  destruct (handle_cases r w _ eq_refl)
    as [[Ht Hc]|[(payload & d & _ & _ & _ & ->)
                |[(task_id & payload & u & old & _ & _ & Hin & _ & _ & ->)
                 |(task_id & old & _ & _ & _ & ->)]]].
  - rewrite Ht. eapply Forall_impl; [done|]. intros row. by apply stamped_later.
  - simpl. apply Forall_app. split.
    + eapply Forall_impl; [done|]. intros row. apply stamped_later. simpl. lia.
    + repeat constructor. exists (clock_reads w), (S (clock_reads w)).
      simpl. split; [lia|done].
  - simpl. apply Forall_forall. intros row [->|Hr]%update_where_id_elem.
    + destruct (Hrow old Hin) as (i & j & Hij & Hc & _).
      exists i, (clock_reads w). simpl. split; [lia|done].
    + apply (stamped_later w); [simpl; lia|auto].
  - simpl. apply Forall_forall. intros row [_ Hr]%list_elem_of_filter.
    apply (stamped_later w); [simpl; lia|auto].
Qed.

Lemma serve_stamped (rs : list request) (w : World) :
  Forall (stamped utcnow w) (table w) →
  Forall (stamped utcnow (serve utcnow uuid4 bool_schema rs w))
         (table (serve utcnow uuid4 bool_schema rs w)).
Proof.
  revert w. induction rs as [|r rs IH]; intros w Hw; [done|].
  apply IH. by apply handle_stamped.
Qed.

End Reach.

Lemma empty_world_ok : db_ok empty_world.
Proof. split; constructor. Qed.

Lemma tick_increasing : increasing tick.
Proof. intros i j H. unfold tick. lia. Qed.

Lemma increasing_monotone (utcnow : nat → datetime) :
  increasing utcnow → monotone utcnow.
Proof.
  intros H i j Hij. destruct (decide (i = j)) as [->|]; [lia|].
  apply Z.lt_le_incl, H. lia.
Qed.

(** X4. With a clock that never goes back, in every world reached from
    the empty one by any sequence of requests, every stored record has
    [created_at <= updated_at]. *)
Theorem updated_at_not_before_created_at (utcnow : nat → datetime)
    (uuid4 : nat → UUID) (bool_schema : json → option bool)
    (rs : list request) :
  monotone utcnow →
  Forall (λ r, (Task.created_at r ≤ Task.updated_at r)%Z)
         (table (serve utcnow uuid4 bool_schema rs empty_world)).
Proof.
  intros Hmono.
  eapply Forall_impl;
    [apply (serve_stamped utcnow uuid4 bool_schema rs empty_world); constructor|].
  intros r (i & j & Hij & -> & ->). apply Hmono. lia.
Qed.

Lemma updated_at_not_before_created_at_witness :
  monotone tick
  ∧ Forall (λ r, (Task.created_at r ≤ Task.updated_at r)%Z)
      (table (serve tick serial strict_bool sample_requests empty_world)).
Proof.
  assert (H : monotone tick) by (intros i j Hij; unfold tick; lia).
  exact (conj H (updated_at_not_before_created_at tick serial strict_bool
                   sample_requests H)).
Defined.

(** X5. With a clock that advances at every reading, in every world
    reached from the empty one, whenever the update of a stored record
    returns a record, the [updated_at] of that record is strictly later
    than the stored one, and its [created_at] is the stored one. *)
Theorem update_advances_updated_at (utcnow : nat → datetime)
    (uuid4 : nat → UUID) (bool_schema : json → option bool)
    (rs : list request) (old new : Task.t) (u : TaskUpdate.t) (w' : World) :
  increasing utcnow →
  old ∈ table (serve utcnow uuid4 bool_schema rs empty_world) →
  update_task utcnow (Task.id old) u
    (serve utcnow uuid4 bool_schema rs empty_world) = (Ok new, w') →
  (Task.updated_at old < Task.updated_at new)%Z
  ∧ Task.created_at new = Task.created_at old.
Proof.
  intros Hinc Hin Hup. set (w := serve utcnow uuid4 bool_schema rs empty_world) in *.
  assert (Hok : db_ok w) by apply serve_db_ok, empty_world_ok.
  assert (Hstamp : stamped utcnow w old).
  { assert (H0 : Forall (stamped utcnow empty_world) (table empty_world))
      by constructor.
    apply (proj1 (Forall_forall _ _)
             (serve_stamped utcnow uuid4 bool_schema rs empty_world H0) old Hin). }
  destruct (update_task_inv utcnow w w' old new u Hok Hin Hup) as (_ & -> & _).
  simpl. destruct Hstamp as (i & j & Hij & _ & ->). split; [|done].
  apply Hinc. lia.
Qed.

Lemma update_advances_updated_at_witness :
  increasing tick
  ∧ padded_task
    ∈ table (serve tick serial strict_bool sample_requests empty_world)
  ∧ update_task tick (Task.id padded_task) completed_update
      (serve tick serial strict_bool sample_requests empty_world)
    = (Ok padded_completed_task, mkWorld [padded_completed_task] 5 1)
  ∧ (Task.updated_at padded_task < Task.updated_at padded_completed_task)%Z
  ∧ Task.created_at padded_completed_task = Task.created_at padded_task.
Proof.
  assert (H1 : increasing tick) by exact tick_increasing.
  assert (H2 : padded_task
               ∈ table (serve tick serial strict_bool sample_requests empty_world)).
  { rewrite sample_session_trace. apply list_elem_of_here. }
  assert (H3 : update_task tick (Task.id padded_task) completed_update
                 (serve tick serial strict_bool sample_requests empty_world)
               = (Ok padded_completed_task, mkWorld [padded_completed_task] 5 1))
    by (by vm_compute).
  exact (conj H1 (conj H2 (conj H3
           (update_advances_updated_at tick serial strict_bool sample_requests
              _ _ _ _ H1 H2 H3)))).
Defined.

(** X6. The constraints the table declares hold in every world reached
    from the empty one by any sequence of requests: no two stored records
    share an id, and no stored record has a null title or a null
    [is_completed]. *)
Theorem reachable_worlds_keep_constraints (utcnow : nat → datetime)
    (uuid4 : nat → UUID) (bool_schema : json → option bool)
    (rs : list request) :
  NoDup (Task.id <$> table (serve utcnow uuid4 bool_schema rs empty_world))
  ∧ Forall (λ r, is_Some (Task.title r) ∧ is_Some (Task.is_completed r))
           (table (serve utcnow uuid4 bool_schema rs empty_world)).
Proof.
  destruct (serve_db_ok utcnow uuid4 bool_schema rs empty_world empty_world_ok)
    as [Hnd Hnn].
  split; [done|]. eapply Forall_impl; [done|].
  intros r [Ht Hc]%andb_prop. by apply bool_decide_eq_true in Ht, Hc.
Qed.

(** ** Endpoints on a table that satisfies its constraints *)

Lemma model_validate_not_null (task : Task.t) :
  Task.not_null task = true →
  TaskResponse.model_validate task = Ok (to_response task).
Proof.
  unfold Task.not_null, TaskResponse.model_validate, to_response.
  intros [[ti Ht]%bool_decide_eq_true [co Hc]%bool_decide_eq_true]%andb_prop.
  by rewrite Ht, Hc.
Qed.

Lemma model_validate_all_not_null (tasks : list Task.t) :
  Forall (λ r, Task.not_null r = true) tasks →
  model_validate_all tasks = Ok (to_response <$> tasks).
Proof.
  induction 1 as [|task tasks Hnn _ IH]; [done|]. simpl.
  by rewrite model_validate_not_null, IH.
Qed.

Lemma elem_of_ids (l : list Task.t) (task_id : UUID) :
  task_id ∈ Task.id <$> l → ∃ old, old ∈ l ∧ Task.id old = task_id.
Proof. intros (old & -> & Hin)%list_elem_of_fmap. eauto. Qed.

Section Endpoints.

Context (utcnow : nat → datetime) (uuid4 : nat → UUID)
        (bool_schema : json → option bool).

Lemma get_tasks_ok (w : World) :
  db_ok w →
  get_tasks w
  = (Ok (tasks_body (to_response <$> merge_sort Task.created_at_desc (table w))), w).
Proof.
  intros [_ Hnn]. unfold get_tasks, list_tasks, select_order_by_created_at_desc,
    bind, lift, ret.
  rewrite model_validate_all_not_null; [done|].
  by rewrite merge_sort_Permutation.
Qed.

Lemma get_tasks_id_ok (w : World) (old : Task.t) :
  db_ok w → old ∈ table w →
  get_tasks_id (Task.id old) w = (Ok (task_body (to_response old)), w).
Proof.
  intros Hok Hin. unfold get_tasks_id, bind, lift, ret.
  rewrite get_task_present; [|apply Hok|done].
  by rewrite model_validate_not_null by by apply (db_ok_row w).
Qed.

Lemma get_tasks_id_absent (w : World) (task_id : UUID) :
  task_id ∉ Task.id <$> table w →
  get_tasks_id task_id w = (Raise (TaskNotFoundError task_id), w).
Proof. intros H. unfold get_tasks_id, bind. by rewrite get_task_absent. Qed.

Lemma put_tasks_id_invalid (w : World) (task_id : UUID) payload e :
  TaskUpdate.validate bool_schema payload = Raise e →
  put_tasks_id utcnow bool_schema task_id payload w = (Raise e, w).
Proof. intros H. unfold put_tasks_id, bind, lift. by rewrite H. Qed.

Lemma put_tasks_id_absent (w : World) (task_id : UUID) payload u :
  TaskUpdate.validate bool_schema payload = Ok u →
  task_id ∉ Task.id <$> table w →
  put_tasks_id utcnow bool_schema task_id payload w
  = (Raise (TaskNotFoundError task_id), w).
Proof.
  intros H Habs. unfold put_tasks_id. unfold bind at 1. unfold lift at 1.
  rewrite H. unfold bind at 1.
  by rewrite update_task_unfold, get_task_absent.
Qed.

Lemma put_tasks_id_ok (w : World) (old : Task.t) payload u :
  db_ok w → old ∈ table w →
  TaskUpdate.validate bool_schema payload = Ok u →
  Task.sendable (updated u (utcnow (clock_reads w)) old) = true →
  Task.not_null (updated u (utcnow (clock_reads w)) old) = true →
  put_tasks_id utcnow bool_schema (Task.id old) payload w
  = (Ok (task_body (to_response (updated u (utcnow (clock_reads w)) old))),
     mkWorld (update_where_id (updated u (utcnow (clock_reads w)) old) (table w))
             (S (clock_reads w)) (uuid_draws w)).
Proof.
  intros Hok Hin H Hs Hnn. unfold put_tasks_id. unfold bind at 1. unfold lift at 1.
  rewrite H. unfold bind at 1.
  rewrite update_task_ok; [|apply Hok|done..].
  unfold bind, lift, ret. by rewrite model_validate_not_null.
Qed.

Lemma put_tasks_id_refused (w : World) (old : Task.t) payload u :
  db_ok w → old ∈ table w →
  TaskUpdate.validate bool_schema payload = Ok u →
  Task.sendable (updated u (utcnow (clock_reads w)) old) = true →
  Task.not_null (updated u (utcnow (clock_reads w)) old) = false →
  put_tasks_id utcnow bool_schema (Task.id old) payload w
  = (Raise IntegrityError,
     mkWorld (table w) (S (clock_reads w)) (uuid_draws w)).
Proof.
  intros Hok Hin H Hs Hnn. unfold put_tasks_id. unfold bind at 1. unfold lift at 1.
  rewrite H. unfold bind at 1.
  by rewrite update_task_refused; [|apply Hok|..].
Qed.

Lemma put_tasks_id_unencodable (w : World) (old : Task.t) payload u :
  db_ok w → old ∈ table w →
  TaskUpdate.validate bool_schema payload = Ok u →
  Task.sendable (updated u (utcnow (clock_reads w)) old) = false →
  put_tasks_id utcnow bool_schema (Task.id old) payload w
  = (Raise UnicodeEncodeError,
     mkWorld (table w) (S (clock_reads w)) (uuid_draws w)).
Proof.
  intros Hok Hin H Hs. unfold put_tasks_id. unfold bind at 1. unfold lift at 1.
  rewrite H. unfold bind at 1.
  by rewrite update_task_unencodable; [|apply Hok|..].
Qed.

Lemma delete_tasks_id_ok (w : World) (old : Task.t) :
  db_ok w → old ∈ table w →
  delete_tasks_id (Task.id old) w
  = (Ok no_content,
     mkWorld (filter (λ r, Task.id r ≠ Task.id old) (table w))
             (clock_reads w) (uuid_draws w)).
Proof.
  intros Hok Hin. unfold delete_tasks_id. unfold bind at 1.
  by rewrite delete_task_ok; [|apply Hok|].
Qed.

Lemma delete_tasks_id_absent (w : World) (task_id : UUID) :
  task_id ∉ Task.id <$> table w →
  delete_tasks_id task_id w = (Raise (TaskNotFoundError task_id), w).
Proof.
  intros H. unfold delete_tasks_id, delete_task, bind.
  by rewrite get_task_absent.
Qed.

(** The answer of every endpoint, by cases. *)
Lemma handle_answer (r : request) (w : World) :
  db_ok w →
  (validate_request bool_schema r = Ok ()
   ∧ ∃ resp, (handle utcnow uuid4 bool_schema r w).1 = Ok resp)
  ∨ ((∃ fields, validate_request bool_schema r = Raise (ValidationError fields)
                ∧ (handle utcnow uuid4 bool_schema r w).1
                  = Raise (ValidationError fields))
     ∧ (handle utcnow uuid4 bool_schema r w).2 = w)
  ∨ (validate_request bool_schema r = Ok ()
     ∧ (∃ task_id,
          (handle utcnow uuid4 bool_schema r w).1
          = Raise (TaskNotFoundError task_id)
          ∧ (task_id ∉ Task.id <$> table w)
          ∧ (r = GET task_id ∨ r = DELETE task_id
             ∨ ∃ payload, r = PUT task_id payload))
     ∧ (handle utcnow uuid4 bool_schema r w).2 = w)
  ∨ (validate_request bool_schema r = Ok ()
     ∧ ((handle utcnow uuid4 bool_schema r w).1 = Raise IntegrityError
        ∨ (handle utcnow uuid4 bool_schema r w).1 = Raise UnicodeEncodeError)
     ∧ table (handle utcnow uuid4 bool_schema r w).2 = table w).
Proof.
  intros Hok.
  destruct r as [payload| |task_id|task_id payload|task_id]; simpl.
  - rewrite post_tasks_unfold.
    destruct (TaskCreate.validate payload) as [d|e] eqn:E.
    + destruct (Task.sendable _);
        [|right; right; right; split_and!; [done|by right|done]].
      case_decide; [|left; split; [done|by eexists]].
      right; right; right. split_and!; [done|by left|done].
    + right; left. unfold TaskCreate.validate in E.
      destruct (TaskCreate.validate_title _), (TaskCreate.validate_description _);
        try done; injection E as <-; (split; [by eexists|done]).
  - left. rewrite get_tasks_ok by done. split; [done|by eexists].
  - destruct (decide (task_id ∈ Task.id <$> table w)) as [Hin|Hnin].
    + apply elem_of_ids in Hin as (old & Hin & <-).
      left. rewrite get_tasks_id_ok by done. split; [done|by eexists].
    + right; right; left. rewrite get_tasks_id_absent by done.
      split_and!; try done. exists task_id. split_and!; try done. by left.
  - destruct (TaskUpdate.validate bool_schema payload) as [u|e] eqn:E.
    + destruct (decide (task_id ∈ Task.id <$> table w)) as [Hin|Hnin].
      * apply elem_of_ids in Hin as (old & Hin & <-).
        destruct (Task.sendable (updated u (utcnow (clock_reads w)) old)) eqn:Hs.
        -- destruct (Task.not_null (updated u (utcnow (clock_reads w)) old)) eqn:Hnn.
           ++ left. rewrite (put_tasks_id_ok w old payload u) by done.
              split; [done|by eexists].
           ++ right; right; right.
              rewrite (put_tasks_id_refused w old payload u) by done.
              split_and!; [done|by left|done].
        -- right; right; right.
           rewrite (put_tasks_id_unencodable w old payload u) by done.
           split_and!; [done|by right|done].
      * right; right; left. rewrite (put_tasks_id_absent w task_id payload u) by done.
        split_and!; try done. exists task_id. split_and!; try done.
        right; right. by exists payload.
    + right; left. rewrite put_tasks_id_invalid with (e := e) by done.
      unfold TaskUpdate.validate in E.
      destruct (TaskUpdate.with_default TaskUpdate.validate_title _ _),
               (TaskUpdate.with_default nullable_str _ _),
               (TaskUpdate.with_default (TaskUpdate.validate_is_completed _) _ _);
        try done; injection E as <-; (split; [by eexists|done]).
  - destruct (decide (task_id ∈ Task.id <$> table w)) as [Hin|Hnin].
    + apply elem_of_ids in Hin as (old & Hin & <-).
      left. rewrite delete_tasks_id_ok by done. split; [done|by eexists].
    + right; right; left. rewrite delete_tasks_id_absent by done.
      split_and!; try done. exists task_id. split_and!; try done. right. by left.
Qed.

End Endpoints.

(** ** More on the task service *)

(** X7. A request changes at most the record it addresses: whatever the
    request and its answer, a record whose id the request does not
    address is stored after the request exactly when it was stored before,
    with the same field values. A creation addresses the id it generates,
    a listing addresses no id. *)
Theorem request_touches_one_record (utcnow : nat → datetime)
    (uuid4 : nat → UUID) (bool_schema : json → option bool)
    (r : request) (w : World) (row : Task.t) :
  addressed uuid4 r w ≠ Some (Task.id row) →
  row ∈ table w ↔ row ∈ table (handle utcnow uuid4 bool_schema r w).2.
Proof.
  intros Hne.
  destruct (handle_cases utcnow uuid4 bool_schema r w _ eq_refl)
    as [[-> _]|[(payload & d & -> & _ & _ & ->)
               |[(task_id & payload & u & old & -> & _ & _ & <- & _ & ->)
                |(task_id & old & -> & _ & _ & ->)]]]; simpl in *.
  - done.
  - rewrite elem_of_app, list_elem_of_singleton. split; [by left|].
    intros [H| ->]; [done|]. by destruct Hne.
  - apply update_where_id_other. simpl. congruence.
  - rewrite list_elem_of_filter. split; [|tauto].
    intros H. split; [congruence|done].
Qed.

Lemma request_touches_one_record_witness :
  addressed serial (POST sample_payload) sample_world ≠ Some (Task.id sample_task)
  ∧ (sample_task ∈ table sample_world
     ↔ sample_task
       ∈ table (handle tick serial strict_bool (POST sample_payload)
                  sample_world).2).
Proof.
  assert (H : addressed serial (POST sample_payload) sample_world
              ≠ Some (Task.id sample_task))
    by discriminate.
  exact (conj H (request_touches_one_record tick serial strict_bool
                   (POST sample_payload) sample_world sample_task H)).
Defined.

(** X8. A request that raises has written nothing: on a table that
    satisfies its constraints, whenever an endpoint ends with an
    exception (a validation error, [TaskNotFoundError], or an
    [IntegrityError] or a [UnicodeEncodeError] at commit), the table is
    the one before the request. *)
Theorem failed_request_writes_nothing (utcnow : nat → datetime)
    (uuid4 : nat → UUID) (bool_schema : json → option bool)
    (r : request) (w : World) (e : error) :
  db_ok w →
  (handle utcnow uuid4 bool_schema r w).1 = Raise e →
  table (handle utcnow uuid4 bool_schema r w).2 = table w.
Proof.
  intros Hok He.
  destruct (handle_answer utcnow uuid4 bool_schema r w Hok)
    as [[_ [resp H]]|[[_ ->]|[(_ & _ & ->)|(_ & _ & H)]]];
    try done. congruence.
Qed.

Lemma failed_request_writes_nothing_witness :
  db_ok sample_world
  ∧ (handle tick serial strict_bool (PUT 0%N {["title" := JNull]})
       sample_world).1 = Raise IntegrityError
  ∧ table (handle tick serial strict_bool (PUT 0%N {["title" := JNull]})
             sample_world).2 = table sample_world.
Proof.
  assert (H1 : db_ok sample_world) by exact sample_world_ok.
  assert (H2 : (handle tick serial strict_bool (PUT 0%N {["title" := JNull]})
                  sample_world).1 = Raise IntegrityError) by (by vm_compute).
  exact (conj H1 (conj H2
           (failed_request_writes_nothing tick serial strict_bool
              (PUT 0%N {["title" := JNull]}) sample_world _ H1 H2))).
Defined.

(** X9. After an update of a stored record that returns, [get_task] with
    the same id returns the very record the update returned. *)
Theorem update_then_get (utcnow : nat → datetime) (w w' : World)
    (old new : Task.t) (u : TaskUpdate.t) :
  db_ok w → old ∈ table w →
  update_task utcnow (Task.id old) u w = (Ok new, w') →
  get_task (Task.id old) w' = (Ok new, w').
Proof.
  intros Hok Hin Hup.
  destruct (update_task_inv _ _ _ _ _ _ Hok Hin Hup) as (_ & -> & ->).
  change (Task.id old) with (Task.id (updated u (utcnow (clock_reads w)) old)).
  apply get_task_present; simpl.
  - rewrite update_where_id_ids. apply Hok.
  - by apply (update_where_id_new _ old).
Qed.

Lemma update_then_get_witness :
  db_ok sample_world ∧ sample_task ∈ table sample_world
  ∧ update_task tick (Task.id sample_task)
      (TaskUpdate.mk None None (Some true) {["is_completed"]}) sample_world
    = (Ok (Task.mk 0%N (Some (pystr_of_string "Write documentation"))
                   (Some (pystr_of_string "Create API docs")) (Some true)
                   0%Z 2%Z),
       mkWorld [Task.mk 0%N (Some (pystr_of_string "Write documentation"))
                        (Some (pystr_of_string "Create API docs")) (Some true)
                        0%Z 2%Z] 3 1)
  ∧ get_task (Task.id sample_task)
      (mkWorld [Task.mk 0%N (Some (pystr_of_string "Write documentation"))
                        (Some (pystr_of_string "Create API docs")) (Some true)
                        0%Z 2%Z] 3 1)
    = (Ok (Task.mk 0%N (Some (pystr_of_string "Write documentation"))
                   (Some (pystr_of_string "Create API docs")) (Some true)
                   0%Z 2%Z),
       mkWorld [Task.mk 0%N (Some (pystr_of_string "Write documentation"))
                        (Some (pystr_of_string "Create API docs")) (Some true)
                        0%Z 2%Z] 3 1).
Proof.
  assert (H1 : db_ok sample_world) by exact sample_world_ok.
  assert (H2 : sample_task ∈ table sample_world) by apply list_elem_of_here.
  assert (H3 : update_task tick (Task.id sample_task)
      (TaskUpdate.mk None None (Some true) {["is_completed"]}) sample_world
    = (Ok (Task.mk 0%N (Some (pystr_of_string "Write documentation"))
                   (Some (pystr_of_string "Create API docs")) (Some true)
                   0%Z 2%Z),
       mkWorld [Task.mk 0%N (Some (pystr_of_string "Write documentation"))
                        (Some (pystr_of_string "Create API docs")) (Some true)
                        0%Z 2%Z] 3 1)) by (by vm_compute).
  exact (conj H1 (conj H2 (conj H3
           (update_then_get tick sample_world _ sample_task _ _ H1 H2 H3)))).
Defined.

(** ** Listing in creation order *)

Lemma HdRel_mono {A} (R1 R2 : relation A) (x : A) (l : list A) :
  (∀ y, R1 x y → R2 x y) → HdRel R1 x l → HdRel R2 x l.
Proof. intros H []; constructor; auto. Qed.

Lemma Sorted_mono {A} (R1 R2 : relation A) (l : list A) :
  (∀ x y, R1 x y → R2 x y) → Sorted R1 l → Sorted R2 l.
Proof.
  intros H. induction 1; constructor; [done|].
  eapply HdRel_mono; [|done]. auto.
Qed.

#[local] Instance created_before_trans : Transitive created_before.
Proof. intros a b c. unfold created_before. lia. Qed.

(** X10. With a clock that advances at every reading, after creations in
    the empty world that each returned a record, [list_tasks] returns the
    created records in the reverse of creation order: the last created
    first. *)
Theorem list_tasks_reverses_creation_order (utcnow : nat → datetime)
    (uuid4 : nat → UUID) (inputs : list TaskCreate.t)
    (tasks : list Task.t) (w : World) :
  increasing utcnow →
  create_all utcnow uuid4 inputs empty_world = (Ok tasks, w) →
  list_tasks w = (Ok (reverse tasks), w).
Proof.
  intros Hinc Hc.
  destruct (create_all_inv utcnow uuid4 inputs empty_world w tasks Hc)
    as (Htab & _ & Hs).
  destruct (Hs Hinc) as [Hsorted _]. simpl in Htab.
  unfold list_tasks, select_order_by_created_at_desc. rewrite Htab.
  f_equal. f_equal.
  assert (Hstrong : StronglySorted created_before tasks).
  { apply Sorted_StronglySorted; [apply _|done]. }
  apply (StronglySorted_unique_strong Task.created_at_desc).
  - intros x1 x2 Hx1 Hx2 H12 H21.
    rewrite merge_sort_Permutation in Hx1.
    rewrite reverse_Permutation in Hx2.
    unfold Task.created_at_desc in *.
    clear -Hstrong Hx1 Hx2 H12 H21.
    induction Hstrong as [|x l _ IH Hall]; [by apply elem_of_nil in Hx1|].
    rewrite Forall_forall in Hall. unfold created_before in Hall.
    apply elem_of_cons in Hx1 as [->|Hx1], Hx2 as [->|Hx2]; auto.
    + specialize (Hall _ Hx2). lia.
    + specialize (Hall _ Hx1). lia.
  - apply StronglySorted_merge_sort; apply _.
  - apply Sorted_StronglySorted; [apply _|].
    apply (Sorted_mono (flip created_before)).
    + unfold created_before, Task.created_at_desc, flip. lia.
    + by apply Sorted_reverse.
  - by rewrite merge_sort_Permutation, reverse_Permutation.
Qed.

Lemma list_tasks_reverses_creation_order_witness :
  increasing tick
  ∧ create_all tick serial three_creations empty_world
    = (Ok three_tasks, three_world)
  ∧ list_tasks three_world = (Ok (reverse three_tasks), three_world).
Proof.
  assert (H1 : increasing tick) by exact tick_increasing.
  assert (H2 : create_all tick serial three_creations empty_world
               = (Ok three_tasks, three_world)) by (by vm_compute).
  exact (conj H1 (conj H2
           (list_tasks_reverses_creation_order tick serial three_creations
              three_tasks three_world H1 H2))).
Defined.

(** ** Exception handlers *)

Lemma add_field_error_lookup (acc : gmap string (list string))
    (error : ErrorDetails) (f : string) :
  add_field_error acc error !! f
  = if decide (error_field error = f)
    then Some (default [] (acc !! f) ++ [msg error])
    else acc !! f.
Proof.
  unfold add_field_error. rewrite lookup_alter.
  case_decide as E; [subst f|];
    destruct (acc !! error_field error) eqn:Hacc; simpl;
    rewrite ?lookup_insert_eq, ?lookup_insert_ne, ?Hacc by done; done.
Qed.

Lemma foldl_add_field_error_lookup (errors : list ErrorDetails)
    (acc : gmap string (list string)) (f : string) :
  foldl add_field_error acc errors !! f
  = match acc !! f, msg <$> filter (λ e, error_field e = f) errors with
    | None, [] => None
    | None, msgs => Some msgs
    | Some l, msgs => Some (l ++ msgs)
    end.
Proof.
  revert acc. induction errors as [|e es IH]; intros acc; simpl.
  - destruct (acc !! f); [by rewrite app_nil_r|done].
  - rewrite IH, add_field_error_lookup. case_decide as E.
    + rewrite filter_cons_True by done. simpl.
      destruct (acc !! f); simpl; [by rewrite <- app_assoc|done].
    + by rewrite filter_cons_False by done.
Qed.

(** X11. The dictionary [validation_error_handler] builds holds, under
    each field name, the messages of the errors located at that field, all
    of them and in the order of the errors, and has no key without a
    message; an error without location is filed under ["unknown"]. *)
Theorem collect_field_errors_lookup (errors : list ErrorDetails) (f : string) :
  collect_field_errors errors !! f
  = match msg <$> filter (λ e, error_field e = f) errors with
    | [] => None
    | msgs => Some msgs
    end
  ∧ (∀ e, loc e = [] → error_field e = "unknown")
  ∧ (∀ e l s, loc e = l ++ [LocStr s] → error_field e = s).
Proof.
  split_and!.
  - unfold collect_field_errors.
    by rewrite foldl_add_field_error_lookup, lookup_empty.
  - intros e H. unfold error_field. by rewrite H.
  - intros e l s H. unfold error_field. by rewrite H, last_snoc.
Qed.

Lemma body_errors_field (error_msg : gmap string json → string → string)
    (payload : gmap string json) (fields : list string) (f : string) :
  msg <$> filter (λ e, error_field e = f) (body_errors error_msg payload fields)
  = error_msg payload <$> filter (λ x, x = f) fields.
Proof.
  induction fields as [|x xs IH]; [done|]. unfold body_errors in *.
  rewrite fmap_cons, !filter_cons.
  change (error_field (mkError [LocStr "body"; LocStr x] (error_msg payload x)))
    with x.
  destruct (decide (x = f)); [|done]. rewrite !fmap_cons. by rewrite IH.
Qed.

Section Answers.

Context (utcnow : nat → datetime) (uuid4 : nat → UUID)
        (bool_schema : json → option bool)
        (str_uuid : UUID → string)
        (error_msg : gmap string json → string → string).

Lemma app_absent (r : request) (w : World) (task_id : UUID) :
  validate_request bool_schema r = Ok () →
  handle utcnow uuid4 bool_schema r w = (Raise (TaskNotFoundError task_id), w) →
  app utcnow uuid4 bool_schema str_uuid error_msg r w
  = (Ok (task_not_found_handler str_uuid task_id), w).
Proof. intros Hv Hh. unfold app. by rewrite Hv, Hh. Qed.

Lemma app_returned (r : request) (w w' : World) (resp : response) :
  validate_request bool_schema r = Ok () →
  handle utcnow uuid4 bool_schema r w = (Ok resp, w') →
  app utcnow uuid4 bool_schema str_uuid error_msg r w
  = (Ok (mkResponse (success_status r) (returned resp)), w').
Proof. intros Hv Hh. unfold app. by rewrite Hv, Hh. Qed.

(** A creation answered 201 is one whose endpoint returned. *)
Lemma app_post_created (payload : gmap string json) (w w' : World)
    (resp : response) :
  app utcnow uuid4 bool_schema str_uuid error_msg (POST payload) w
  = (Ok (mkResponse 201 (returned resp)), w') →
  post_tasks utcnow uuid4 payload w = (Ok resp, w').
Proof.
  unfold app. simpl.
  destruct (TaskCreate.validate payload) as [d|[]] eqn:Hd; try done.
  destruct (post_tasks utcnow uuid4 payload w) as [[ret|[]] w1]; try done.
  by intros [= <- <-].
Qed.

End Answers.

(** X12. A request whose body fails validation is answered 400 with
    error code [VALIDATION_ERROR] before anything else happens: the world
    is left as it was (no read of the clock, no lookup, so an unknown id
    does not turn the answer into a 404), and [field_errors] has exactly
    the offending fields as keys, each with its messages. *)
Theorem invalid_body_answers_400 (utcnow : nat → datetime) (uuid4 : nat → UUID)
    (bool_schema : json → option bool) (str_uuid : UUID → string)
    (error_msg : gmap string json → string → string)
    (r : request) (w : World) (fields : list string) :
  validate_request bool_schema r = Raise (ValidationError fields) →
  ∃ field_errors,
    app utcnow uuid4 bool_schema str_uuid error_msg r w
    = (Ok (mkResponse 400
             (error_body "Validation error" "VALIDATION_ERROR"
                         (Some field_errors))), w)
    ∧ ∀ f, field_errors !! f
           = match filter (λ x, x = f) fields with
             | [] => None
             | fs => Some (error_msg (request_payload r) <$> fs)
             end.
Proof.
  intros Hv. eexists. unfold app. rewrite Hv. split; [done|].
  intros f. destruct (collect_field_errors_lookup
    (body_errors error_msg (request_payload r) fields) f) as [-> _].
  rewrite body_errors_field. by destruct (filter _ fields).
Qed.

Lemma invalid_body_answers_400_witness :
  validate_request strict_bool (PUT 5%N {["title" := JStr []]})
  = Raise (ValidationError ["title"])
  ∧ ∃ field_errors,
      app tick serial strict_bool pretty (λ _ f, f) (PUT 5%N {["title" := JStr []]})
        sample_world
      = (Ok (mkResponse 400
               (error_body "Validation error" "VALIDATION_ERROR"
                           (Some field_errors))), sample_world)
      ∧ ∀ f, field_errors !! f
             = match filter (λ x, x = f) ["title"] with
               | [] => None
               | fs => Some ((λ f, f) <$> fs)
               end.
Proof.
  assert (H : validate_request strict_bool (PUT 5%N {["title" := JStr []]})
              = Raise (ValidationError ["title"])) by (by vm_compute).
  exact (conj H (invalid_body_answers_400 tick serial strict_bool pretty
                   (λ _ f, f) (PUT 5%N {["title" := JStr []]}) sample_world
                   ["title"] H)).
Defined.

(** X13. A read, an update with a valid body, or a deletion of an id that
    no stored record carries is answered 404 with error code
    [TASK_NOT_FOUND], no [field_errors] and the detail
    "Task with id <id> not found"; the world is left as it was. *)
Theorem unknown_id_answers_404 (utcnow : nat → datetime) (uuid4 : nat → UUID)
    (bool_schema : json → option bool) (str_uuid : UUID → string)
    (error_msg : gmap string json → string → string)
    (w : World) (task_id : UUID) :
  task_id ∉ Task.id <$> table w →
  let not_found :=
    mkResponse 404
      (error_body ("Task with id " +:+ str_uuid task_id +:+ " not found")
                  "TASK_NOT_FOUND" None) in
  app utcnow uuid4 bool_schema str_uuid error_msg (GET task_id) w
  = (Ok not_found, w)
  ∧ app utcnow uuid4 bool_schema str_uuid error_msg (DELETE task_id) w
    = (Ok not_found, w)
  ∧ ∀ payload u,
      TaskUpdate.validate bool_schema payload = Ok u →
      app utcnow uuid4 bool_schema str_uuid error_msg (PUT task_id payload) w
      = (Ok not_found, w).
Proof.
  intros Habs not_found. split_and!.
  - apply app_absent; [done|]. by apply get_tasks_id_absent.
  - apply app_absent; [done|]. by apply delete_tasks_id_absent.
  - intros payload u Hu. apply app_absent; [by simpl; rewrite Hu|].
    by apply (put_tasks_id_absent utcnow bool_schema w task_id payload u).
Qed.

Lemma unknown_id_answers_404_witness :
  (5%N ∉ Task.id <$> table sample_world)
  ∧ app tick serial strict_bool pretty (λ _ f, f) (GET 5%N) sample_world
    = (Ok (mkResponse 404
             (error_body "Task with id 5 not found" "TASK_NOT_FOUND" None)),
       sample_world)
  ∧ app tick serial strict_bool pretty (λ _ f, f) (DELETE 5%N) sample_world
    = (Ok (mkResponse 404
             (error_body "Task with id 5 not found" "TASK_NOT_FOUND" None)),
       sample_world)
  ∧ ∀ payload u,
      TaskUpdate.validate strict_bool payload = Ok u →
      app tick serial strict_bool pretty (λ _ f, f) (PUT 5%N payload) sample_world
      = (Ok (mkResponse 404
               (error_body "Task with id 5 not found" "TASK_NOT_FOUND" None)),
         sample_world).
Proof.
  assert (H : 5%N ∉ Task.id <$> table sample_world) by compute_done.
  exact (conj H (unknown_id_answers_404 tick serial strict_bool pretty
                   (λ _ f, f) sample_world 5%N H)).
Defined.

(** ** Answers of the application *)



Lemma filter_id_ne_absent (l : list Task.t) (x : UUID) :
  x ∉ Task.id <$> l → filter (λ r, Task.id r ≠ x) l = l.
Proof.
  induction l as [|r l IH]; [done|]. rewrite fmap_cons, not_elem_of_cons.
  intros [Hne Hl]. rewrite filter_cons_True by done. by rewrite IH.
Qed.

(** X15. The life of a record: on a table that satisfies its
    constraints, whenever a creation is answered 201 with a record, the
    record carries the generated id and [is_completed] false; a read of
    that id is then answered 200 with the same body; its deletion is
    answered 204 and leaves the table exactly as it was before the
    creation; and a read of the id is then answered 404. *)
Theorem create_get_delete_get (utcnow : nat → datetime) (uuid4 : nat → UUID)
    (bool_schema : json → option bool) (str_uuid : UUID → string)
    (error_msg : gmap string json → string → string)
    (payload : gmap string json) (w w1 : World) (t : TaskResponse.t) :
  db_ok w →
  app utcnow uuid4 bool_schema str_uuid error_msg (POST payload) w
  = (Ok (mkResponse 201 (returned (task_body t))), w1) →
  TaskResponse.id t = uuid4 (uuid_draws w)
  ∧ TaskResponse.is_completed t = false
  ∧ app utcnow uuid4 bool_schema str_uuid error_msg (GET (TaskResponse.id t)) w1
    = (Ok (mkResponse 200 (returned (task_body t))), w1)
  ∧ ∃ w2,
      app utcnow uuid4 bool_schema str_uuid error_msg
        (DELETE (TaskResponse.id t)) w1
      = (Ok (mkResponse 204 (returned no_content)), w2)
      ∧ table w2 = table w
      ∧ app utcnow uuid4 bool_schema str_uuid error_msg
          (GET (TaskResponse.id t)) w2
        = (Ok (task_not_found_handler str_uuid (TaskResponse.id t)), w2).
Proof.
  intros Hok Hpost.
  apply app_post_created in Hpost as Hh.
  pose proof (handle_db_ok utcnow uuid4 bool_schema (POST payload) w Hok) as Hok1.
  simpl in Hok1. rewrite Hh in Hok1. simpl in Hok1.
  rewrite post_tasks_unfold in Hh.
  destruct (TaskCreate.validate payload) as [d|e] eqn:Hd; [|done].
  destruct (Task.sendable _); [|done].
  case_decide as Hfresh; [done|]. injection Hh as <- <-.
  set (new := created utcnow uuid4 d w) in *.
  set (w1 := after_create utcnow uuid4 d w) in *.
  assert (Hin1 : new ∈ table w1).
  { simpl. apply elem_of_app. right. apply list_elem_of_here. }
  split_and!; try done.
  - apply (app_returned _ _ _ _ _ (GET (Task.id new))); [done|].
    by apply get_tasks_id_ok.
  - exists (mkWorld (filter (λ r, Task.id r ≠ Task.id new) (table w1))
                    (clock_reads w1) (uuid_draws w1)).
    split_and!.
    + apply (app_returned _ _ _ _ _ (DELETE (Task.id new))); [done|].
      by apply delete_tasks_id_ok.
    + simpl. rewrite filter_app, filter_id_ne_absent by done.
      rewrite filter_cons_False, filter_nil by (simpl; tauto).
      by rewrite app_nil_r.
    + apply app_absent; [done|]. apply get_tasks_id_absent. simpl.
      intros (r & E & [Hne _]%list_elem_of_filter)%list_elem_of_fmap.
      by destruct Hne.
Qed.

Lemma create_get_delete_get_witness :
  db_ok empty_world
  ∧ app tick serial strict_bool pretty (λ _ f, f) (POST sample_payload)
      empty_world
    = (Ok (mkResponse 201 (returned (task_body deployed_response))),
       deployed_world)
  ∧ TaskResponse.id deployed_response = serial (uuid_draws empty_world)
  ∧ TaskResponse.is_completed deployed_response = false
  ∧ app tick serial strict_bool pretty (λ _ f, f)
      (GET (TaskResponse.id deployed_response)) deployed_world
    = (Ok (mkResponse 200 (returned (task_body deployed_response))),
       deployed_world)
  ∧ ∃ w2,
      app tick serial strict_bool pretty (λ _ f, f)
        (DELETE (TaskResponse.id deployed_response)) deployed_world
      = (Ok (mkResponse 204 (returned no_content)), w2)
      ∧ table w2 = table empty_world
      ∧ app tick serial strict_bool pretty (λ _ f, f)
          (GET (TaskResponse.id deployed_response)) w2
        = (Ok (task_not_found_handler pretty
                 (TaskResponse.id deployed_response)), w2).
Proof.
  assert (H1 : db_ok empty_world) by exact empty_world_ok.
  assert (H2 : app tick serial strict_bool pretty (λ _ f, f)
                 (POST sample_payload) empty_world
               = (Ok (mkResponse 201 (returned (task_body deployed_response))),
                  deployed_world)) by (by vm_compute).
  exact (conj H1 (conj H2
           (create_get_delete_get tick serial strict_bool pretty (λ _ f, f)
              sample_payload empty_world deployed_world deployed_response
              H1 H2))).
Defined.



(** ** What a client cannot change *)

Lemma TaskUpdate_validate_ignores (bool_schema : json → option bool)
    (payload : gmap string json) (k : string) (v : json) :
  k ≠ "title" → k ≠ "description" → k ≠ "is_completed" →
  TaskUpdate.validate bool_schema (<[k:=v]> payload)
  = TaskUpdate.validate bool_schema payload.
Proof.
  intros H1 H2 H3. unfold TaskUpdate.validate.
  rewrite !lookup_insert_ne by done.
  replace (dom (<[k:=v]> payload) ∩ {["title"; "description"; "is_completed"]})
    with (dom payload ∩ ({["title"; "description"; "is_completed"]} : gset string));
    [done|].
  rewrite dom_insert_L. apply set_eq. intros x.
  rewrite !elem_of_intersection, elem_of_union, elem_of_singleton,
    !elem_of_union, !elem_of_singleton.
  split; [tauto|]. intros [[->|?] ?]; [|tauto]. tauto.
Qed.

(** X17. An update request decides the title, the description and the
    completion flag only: adding any other key ([id], [created_at],
    [updated_at], ...) with any value to its body changes neither the
    answer nor the world. *)
Theorem put_ignores_other_keys (utcnow : nat → datetime)
    (bool_schema : json → option bool) (task_id : UUID)
    (payload : gmap string json) (k : string) (v : json) (w : World) :
  k ≠ "title" → k ≠ "description" → k ≠ "is_completed" →
  put_tasks_id utcnow bool_schema task_id (<[k:=v]> payload) w
  = put_tasks_id utcnow bool_schema task_id payload w.
Proof.
  intros H1 H2 H3. unfold put_tasks_id.
  by rewrite TaskUpdate_validate_ignores.
Qed.

Lemma put_ignores_other_keys_witness :
  "created_at" ≠ "title" ∧ "created_at" ≠ "description"
  ∧ "created_at" ≠ "is_completed"
  ∧ put_tasks_id tick strict_bool 0%N
      (<["created_at" := JInt 99]> clear_description) sample_world
    = put_tasks_id tick strict_bool 0%N clear_description sample_world.
Proof.
  assert (H1 : "created_at" ≠ "title") by discriminate.
  assert (H2 : "created_at" ≠ "description") by discriminate.
  assert (H3 : "created_at" ≠ "is_completed") by discriminate.
  exact (conj H1 (conj H2 (conj H3
           (put_ignores_other_keys tick strict_bool 0%N clear_description
              "created_at" (JInt 99) sample_world H1 H2 H3)))).
Defined.

Lemma same_id_same_row (l : list Task.t) (a b : Task.t) :
  NoDup (Task.id <$> l) → a ∈ l → b ∈ l → Task.id b = Task.id a → b = a.
Proof.
  intros Hnd Ha Hb E.
  assert (Hf : b ∈ filter (λ r, Task.id r = Task.id a) l)
    by by apply list_elem_of_filter.
  rewrite filter_id_unique in Hf by done. by apply list_elem_of_singleton in Hf.
Qed.

(** X18. The id and the creation time of a record are set once: on a
    table that satisfies its constraints, whatever request is served, a
    record stored afterwards under the id of a record stored before has
    the [created_at] of that record. *)
Theorem created_at_is_immutable (utcnow : nat → datetime) (uuid4 : nat → UUID)
    (bool_schema : json → option bool) (r : request) (w : World)
    (row row' : Task.t) :
  db_ok w → row ∈ table w →
  row' ∈ table (handle utcnow uuid4 bool_schema r w).2 →
  Task.id row' = Task.id row →
  Task.created_at row' = Task.created_at row.
Proof.
  intros [Hnd _] Hin Hin' E.
  destruct (handle_cases utcnow uuid4 bool_schema r w _ eq_refl)
    as [[Ht _]|[(payload & d & _ & _ & Hfresh & Hw)
               |[(task_id & payload & u & old & _ & _ & Hold & _ & _ & Hw)
                |(task_id & old & _ & _ & _ & Hw)]]];
    rewrite ?Ht, ?Hw in Hin'; simpl in Hin'.
  - by rewrite (same_id_same_row (table w) row row').
  - apply elem_of_app in Hin' as [Hin'|Hin'].
    + by rewrite (same_id_same_row (table w) row row').
    + apply list_elem_of_singleton in Hin' as ->. simpl in E.
      destruct Hfresh. rewrite E. by apply list_elem_of_fmap_2.
  - apply update_where_id_elem in Hin' as [->|Hin'].
    + simpl in *. by rewrite (same_id_same_row (table w) row old).
    + by rewrite (same_id_same_row (table w) row row').
  - apply list_elem_of_filter in Hin' as [_ Hin'].
    by rewrite (same_id_same_row (table w) row row').
Qed.

Lemma created_at_is_immutable_witness :
  db_ok sample_world ∧ sample_task ∈ table sample_world
  ∧ Task.mk 0%N (Some (pystr_of_string "Write documentation")) None
            (Some false) 0%Z 2%Z
    ∈ table (handle tick serial strict_bool (PUT 0%N clear_description)
               sample_world).2
  ∧ 0%N = Task.id sample_task
  ∧ 0%Z = Task.created_at sample_task.
Proof.
  assert (H1 : db_ok sample_world) by exact sample_world_ok.
  assert (H2 : sample_task ∈ table sample_world) by apply list_elem_of_here.
  assert (H3 : Task.mk 0%N (Some (pystr_of_string "Write documentation")) None
                       (Some false) 0%Z 2%Z
               ∈ table (handle tick serial strict_bool (PUT 0%N clear_description)
                          sample_world).2).
  { simpl. rewrite clear_description_trace. apply list_elem_of_here. }
  assert (H4 : Task.id (Task.mk 0%N (Some (pystr_of_string "Write documentation"))
                          None (Some false) 0%Z 2%Z) = Task.id sample_task)
    by reflexivity.
  exact (conj H1 (conj H2 (conj H3 (conj H4
           (created_at_is_immutable tick serial strict_bool
              (PUT 0%N clear_description) sample_world sample_task _
              H1 H2 H3 H4))))).
Defined.
